(** * libcaparoc: register access and the protected nominal-current write

    A shallow embedding of [src/caparoc.cpp].  The MODBUS transport
    ([ModbusConnection], declared in [caparoc/modbus_connection.hpp]) is an
    external collaborator: it is taken as an interface, and every library
    function is a computation over an arbitrary implementation of it.  A run
    of a computation yields its result (a value or a thrown
    [std::invalid_argument]), the connection it leaves behind and the
    chronological list of transport calls and sleeps it performed. *)

From Stdlib Require Import ZArith List String Ascii Bool Lia DecimalString.
Import ListNotations.
Local Open Scope Z_scope.

(** ** Machine integers *)

(** Conversion of an [int] expression to [uint16_t]. *)
Definition to_uint16 (x : Z) : Z := x mod 65536.

(** Range of a [uint8_t] parameter. *)
Definition is_uint8 (x : Z) : Prop := 0 <= x < 256.

(** [std::format("{}", x)] for an unsigned integer argument. *)
Definition format_uint (x : Z) : string :=
  NilZero.string_of_uint (N.to_uint (Z.to_N x)).

(** ** Strings *)

(** [std::string::find(char)]: position of the first occurrence, or
    [npos] ([None]). *)
Fixpoint find_char (ch : ascii) (s : string) : option nat :=
  match s with
  | EmptyString => None
  | String a s' =>
      if Ascii.eqb a ch then Some O
      else match find_char ch s' with
           | Some n => Some (S n)
           | None => None
           end
  end.

(** [std::string::find] on a C string: position of the first occurrence of
    [pat] as a substring, or [npos] ([None]). *)
Fixpoint find (pat s : string) : option nat :=
  if String.prefix pat s then Some O
  else match s with
       | EmptyString => None
       | String _ s' =>
           match find pat s' with
           | Some n => Some (S n)
           | None => None
           end
       end.

(** [std::string::resize(n)] for [n] not above the length. *)
Definition resize (s : string) (n : nat) : string := String.substring 0 n s.

(** ** Transport interface and observable behaviour *)

(** One entry per transport call or blocking sleep, in program order. *)
Inductive Event : Type :=
| ERead (address : Z) (value : option Z)
| EReadBlock (address : Z) (count : Z) (values : option (list Z))
| EWrite (address value : Z) (ok : bool)
| ESleep (ms : Z).

(** The methods of [ModbusConnection] the library calls.  A read returns
    [false] or fills its [uint16_t] out-parameter(s); a write returns its
    [bool].  Each call may change the connection (and the device behind it). *)
Class ModbusConnection (Conn : Type) : Type := {
  read_register : Conn -> Z -> option Z * Conn;
  read_registers : Conn -> Z -> Z -> option (list Z) * Conn;
  write_register : Conn -> Z -> Z -> bool * Conn
}.

(** A device whose registers can be observed and that keeps what an
    acknowledged write stored. *)
Class HoldingRegisters (Conn : Type) {T : ModbusConnection Conn} : Type := {
  holding : Conn -> Z -> Z;
  write_stores : forall conn a v conn',
    write_register conn a v = (true, conn') -> holding conn' a = v;
  write_frame : forall conn a v ok conn' a',
    write_register conn a v = (ok, conn') -> a' <> a ->
    holding conn' a' = holding conn a'
}.

Inductive exn : Type :=
| invalid_argument (what : string).

Inductive result (A : Type) : Type :=
| Ok (a : A)
| Throw (e : exn).
Arguments Ok {A} a.
Arguments Throw {A} e.

Record Run (Conn A : Type) : Type := mkRun {
  res : result A;
  final : Conn;
  events : list Event
}.
Arguments mkRun {Conn A} res final events.
Arguments res {Conn A} r.
Arguments final {Conn A} r.
Arguments events {Conn A} r.

(** The exception a run ended with, if any. *)
Definition thrown {Conn A} (r : Run Conn A) : option exn :=
  match res r with
  | Ok _ => None
  | Throw e => Some e
  end.

Definition is_write (e : Event) : bool :=
  match e with
  | EWrite _ _ _ => true
  | _ => false
  end.

Definition is_read (e : Event) : bool :=
  match e with
  | ERead _ _ | EReadBlock _ _ _ => true
  | _ => false
  end.

(** ** Status structures *)

Module GlobalStatus.
Record t : Type := mk {
  undervoltage : bool;
  overvoltage : bool;
  cumulative_channel_error : bool;
  cumulative_80_warning : bool;
  system_current_too_high : bool
}.
End GlobalStatus.

Module ChannelStatus.
Record t : Type := mk {
  warning_80_percent : bool;
  overload : bool;
  short_circuit : bool;
  hardware_error : bool;
  voltage_error : bool;
  module_current_too_high : bool;
  system_current_too_high : bool
}.
End ChannelStatus.

(** Lines 528-533 of [get_global_status]: the flags of a status word. *)
Definition decode_global_status (val : Z) : GlobalStatus.t :=
  {| GlobalStatus.undervoltage := negb (Z.land val 0x01 =? 0);
     GlobalStatus.overvoltage := negb (Z.land val 0x02 =? 0);
     GlobalStatus.cumulative_channel_error := negb (Z.land val 0x04 =? 0);
     GlobalStatus.cumulative_80_warning := negb (Z.land val 0x08 =? 0);
     GlobalStatus.system_current_too_high := negb (Z.land val 0x10 =? 0) |}.

(** Lines 568-575 of [get_channel_status]: the flags of a status word. *)
Definition decode_channel_status (val : Z) : ChannelStatus.t :=
  {| ChannelStatus.warning_80_percent := negb (Z.land val 0x01 =? 0);
     ChannelStatus.overload := negb (Z.land val 0x02 =? 0);
     ChannelStatus.short_circuit := negb (Z.land val 0x04 =? 0);
     ChannelStatus.hardware_error := negb (Z.land val 0x08 =? 0);
     ChannelStatus.voltage_error := negb (Z.land val 0x10 =? 0);
     ChannelStatus.module_current_too_high := negb (Z.land val 0x20 =? 0);
     ChannelStatus.system_current_too_high := negb (Z.land val 0x40 =? 0) |}.

Section Library.

Context {Conn : Type} {T : ModbusConnection Conn}.

Definition M (A : Type) : Type := Conn -> Run Conn A.

Definition ret {A} (a : A) : M A := fun conn => mkRun (Ok a) conn [].

Definition throw {A} (e : exn) : M A := fun conn => mkRun (Throw e) conn [].

Definition bind {A B} (m : M A) (k : A -> M B) : M B := fun conn =>
  let r := m conn in
  match res r with
  | Ok a =>
      let r' := k a (final r) in
      mkRun (res r') (final r') (events r ++ events r')
  | Throw e => mkRun (Throw e) (final r) (events r)
  end.

Notation "x <- m ;; k" := (bind m (fun x => k))
  (at level 61, m at next level, right associativity).
Notation "m ;; k" := (bind m (fun _ => k))
  (at level 61, right associativity).

(** [conn.read_register(address, value)] *)
Definition conn_read_register (address : Z) : M (option Z) := fun conn =>
  let (value, conn') := read_register conn address in
  mkRun (Ok value) conn' [ERead address value].

(** [conn.read_registers(address, count, values)] *)
Definition conn_read_registers (address count : Z) : M (option (list Z)) :=
  fun conn =>
  let (values, conn') := read_registers conn address count in
  mkRun (Ok values) conn' [EReadBlock address count values].

(** [conn.write_register(address, value)] *)
Definition conn_write_register (address value : Z) : M bool := fun conn =>
  let (ok, conn') := write_register conn address value in
  mkRun (Ok ok) conn' [EWrite address value ok].

(** [std::this_thread::sleep_for(std::chrono::milliseconds(ms))] *)
Definition sleep_for (ms : Z) : M unit := fun conn =>
  mkRun (Ok tt) conn [ESleep ms].

(** ** Generic register access *)

Definition read_uint16 (address : Z) : M (option Z) :=
  value <- conn_read_register address ;;
  match value with
  | None => ret None
  | Some value => ret (Some value)
  end.

(** The two [char]s appended for [values[i]]: high byte, then low byte. *)
Definition register_chars (v : Z) : string :=
  String (ascii_of_N (Z.to_N (Z.land (Z.shiftr v 8) 255)))
    (String (ascii_of_N (Z.to_N (Z.land v 255))) EmptyString).

(** Lines 43-54 of [read_string32]: the loop over [i = 0 .. 15] and the
    trimming at the first null byte. *)
Definition string32_of_registers (values : list Z) : string :=
  let result :=
    fold_left
      (fun (result : string) (i : nat) =>
         String.append result (register_chars (nth i values 0)))
      (seq 0 16) EmptyString in
  match find_char Ascii.zero result with
  | Some end_ => resize result end_
  | None => result
  end.

Definition read_string32 (address : Z) : M (option string) :=
  values <- conn_read_registers address 16 ;;
  match values with
  | None => ret None
  | Some values => ret (Some (string32_of_registers values))
  end.

Definition write_uint16 (address value : Z) : M bool :=
  conn_write_register address value.

(** ** Topology *)

Definition get_number_of_connected_modules : M (option Z) :=
  read_uint16 0x2000.

Definition get_number_of_channels_for_module (module_number : Z)
  : M (option Z) :=
  if (module_number <? 1) || (module_number >? 16) then ret None
  else
    let address := to_uint16 (0x2001 + (module_number - 1)) in
    read_uint16 address.

(** ** Validation *)

Definition module_count_unreadable : exn :=
  invalid_argument "Failed to read number of connected modules from device".

Definition invalid_module_number (module_number num_modules : Z) : exn :=
  invalid_argument
    ("Invalid module number: " ++ format_uint module_number
     ++ ". Expected value between 1 and " ++ format_uint num_modules
     ++ " (number of connected modules)")%string.

Definition channel_count_unreadable (module_number : Z) : exn :=
  invalid_argument
    ("Failed to read number of channels for module "
     ++ format_uint module_number ++ " from device")%string.

Definition invalid_channel_number (channel_number module_number num_channels : Z)
  : exn :=
  invalid_argument
    ("Invalid channel number: " ++ format_uint channel_number
     ++ " for module " ++ format_uint module_number
     ++ ". Expected value between 1 and " ++ format_uint num_channels
     ++ " (number of channels for this module)")%string.

Definition validate_module_number (module_number : Z) : M unit :=
  num_modules_opt <- get_number_of_connected_modules ;;
  match num_modules_opt with
  | None => throw module_count_unreadable
  | Some num_modules =>
      if (module_number <? 1) || (module_number >? num_modules)
      then throw (invalid_module_number module_number num_modules)
      else ret tt
  end.

Definition validate_channel_number (module_number channel_number : Z) : M unit :=
  num_channels_opt <- get_number_of_channels_for_module module_number ;;
  match num_channels_opt with
  | None => throw (channel_count_unreadable module_number)
  | Some num_channels =>
      if (channel_number <? 1) || (channel_number >? num_channels)
      then throw (invalid_channel_number channel_number module_number
                    num_channels)
      else ret tt
  end.

(** ** Product information *)

Definition get_product_name_module (module_number : Z) : M (option string) :=
  validate_module_number module_number ;;
  let address := to_uint16 (0x1010 + (module_number - 1) * 0x10) in
  read_string32 address.

(** ** Nominal current *)

Definition kDelay : Z := 50.
Definition kRetries : nat := 5.

Definition dial_only_module : exn :=
  invalid_argument
    "Module is CAPAROC E2 12-24DC/2-10A. Nominal current must be set physically via the rotary dials.".

(** The [for] loop of [set_nominal_current] (lines 347-360), by the number
    of attempts left; its value is [verified]. *)
Fixpoint write_verify_loop (address nominal_current : Z) (remaining : nat)
  : M bool :=
  match remaining with
  | O => ret false
  | S remaining' =>
      ok <- write_uint16 address nominal_current ;;
      if negb ok then
        sleep_for kDelay ;;
        write_verify_loop address nominal_current remaining'
      else
        sleep_for kDelay ;;
        verify <- read_uint16 address ;;
        if match verify with
           | Some x => x =? nominal_current
           | None => false
           end
        then ret true
        else
          sleep_for kDelay ;;
          write_verify_loop address nominal_current remaining'
  end.

Definition set_nominal_current
  (module_number channel_number nominal_current : Z) : M bool :=
  validate_module_number module_number ;;
  validate_channel_number module_number channel_number ;;
  product_name_opt <- get_product_name_module module_number ;;
  if match product_name_opt with
     | Some product_name =>
         match find "CAPAROC E2 12-24DC/2-10A" product_name with
         | Some _ => true
         | None => false
         end
     | None => false
     end
  then throw dial_only_module
  else
    let address :=
      to_uint16 (0xC050 + (module_number - 1) * 4 + (channel_number - 1)) in
    max_cycle_opt <- read_uint16 0x6006 ;;
    let max_bus_cycle_ms :=
      match max_cycle_opt with
      | Some max_cycle => max_cycle
      | None => 100
      end in
    sleep_for (max_bus_cycle_ms + 50) ;;
    let global_lock_address := 0xC001 in
    let channel_lock_address :=
      to_uint16 (0xC090 + (module_number - 1) * 4 + (channel_number - 1)) in
    ok <- write_uint16 channel_lock_address 0 ;;
    if negb ok then ret false
    else
      sleep_for kDelay ;;
      ok <- write_uint16 global_lock_address 0 ;;
      if negb ok then ret false
      else
        sleep_for kDelay ;;
        verified <- write_verify_loop address nominal_current kRetries ;;
        if negb verified then
          write_uint16 global_lock_address 1 ;;
          write_uint16 channel_lock_address 1 ;;
          ret false
        else
          ok <- write_uint16 global_lock_address 1 ;;
          if negb ok then ret false
          else
            sleep_for kDelay ;;
            ok <- write_uint16 channel_lock_address 1 ;;
            if negb ok then ret false
            else
              sleep_for 100 ;;
              ret true.

Definition get_nominal_current (module_number channel_number : Z)
  : M (option Z) :=
  validate_module_number module_number ;;
  validate_channel_number module_number channel_number ;;
  let address :=
    to_uint16 (0xC050 + (module_number - 1) * 4 + (channel_number - 1)) in
  read_uint16 address.

(** ** System status and monitoring *)

Definition get_global_status : M (option GlobalStatus.t) :=
  val <- read_uint16 0x6000 ;;
  match val with
  | None => ret None
  | Some val => ret (Some (decode_global_status val))
  end.

Definition get_channel_status (module_number channel_number : Z)
  : M (option ChannelStatus.t) :=
  validate_module_number module_number ;;
  validate_channel_number module_number channel_number ;;
  let address :=
    to_uint16 (0x6010 + (module_number - 1) * 4 + (channel_number - 1)) in
  val <- read_uint16 address ;;
  match val with
  | None => ret None
  | Some val => ret (Some (decode_channel_status val))
  end.

Definition get_load_current (module_number channel_number : Z)
  : M (option Z) :=
  validate_module_number module_number ;;
  validate_channel_number module_number channel_number ;;
  let address :=
    to_uint16 (0x6050 + (module_number - 1) * 4 + (channel_number - 1)) in
  read_uint16 address.

Definition control_channel (module_number channel_number : Z) (on : bool)
  : M bool :=
  validate_module_number module_number ;;
  validate_channel_number module_number channel_number ;;
  let address :=
    to_uint16 (0xC010 + (module_number - 1) * 4 + (channel_number - 1)) in
  write_uint16 address (if on then 1 else 0).

End Library.

Notation "x <- m ;; k" := (bind m (fun x => k))
  (at level 61, m at next level, right associativity).
Notation "m ;; k" := (bind m (fun _ => k))
  (at level 61, right associativity).

(** ** A scripted device

    A register file behind a transport whose replies follow a script, one
    entry per call: [Ack] serves the call from the register file, [Nak] fails
    it, [Answer v] acknowledges it and, for a single-register read, reports
    [v] instead of the stored word.  An exhausted script acknowledges. *)

Inductive Reply : Type :=
| Ack
| Nak
| Answer (v : Z).

Record Sim : Type := mkSim {
  regs : list (Z * Z);
  script : list Reply
}.

Definition lookup (rs : list (Z * Z)) (a : Z) : Z :=
  match List.find (fun p => fst p =? a) rs with
  | Some p => snd p
  | None => 0
  end.

Definition next_reply (s : Sim) : Reply * Sim :=
  match script s with
  | [] => (Ack, s)
  | r :: rest => (r, mkSim (regs s) rest)
  end.

Definition sim_read_register (s : Sim) (a : Z) : option Z * Sim :=
  let (r, s') := next_reply s in
  match r with
  | Ack => (Some (lookup (regs s') a), s')
  | Nak => (None, s')
  | Answer v => (Some v, s')
  end.

Definition sim_read_registers (s : Sim) (a count : Z)
  : option (list Z) * Sim :=
  let (r, s') := next_reply s in
  match r with
  | Nak => (None, s')
  | _ =>
      (Some (map (fun i => lookup (regs s') (a + Z.of_nat i))
               (seq 0 (Z.to_nat count))), s')
  end.

Definition sim_write_register (s : Sim) (a v : Z) : bool * Sim :=
  let (r, s') := next_reply s in
  match r with
  | Nak => (false, s')
  | _ => (true, mkSim ((a, v) :: regs s') (script s'))
  end.

#[export] Instance Sim_connection : ModbusConnection Sim := {
  read_register := sim_read_register;
  read_registers := sim_read_registers;
  write_register := sim_write_register
}.

(** Register image of a string: two characters per register, high byte
    first, from address [a] on. *)
Fixpoint registers_of_string (a : Z) (s : string) : list (Z * Z) :=
  match s with
  | EmptyString => []
  | String hi EmptyString => [(a, Z.of_N (N_of_ascii hi) * 256)]
  | String hi (String lo s') =>
      (a, Z.of_N (N_of_ascii hi) * 256 + Z.of_N (N_of_ascii lo))
        :: registers_of_string (a + 1) s'
  end.

(** A bench device: two modules, four channels on the first and two on the
    second (a dial-only model), a bus cycle of 20 ms, both locks of channel 1
    of module 1 engaged. *)
Definition bench_regs : list (Z * Z) :=
  [(0x2000, 2); (0x2001, 4); (0x2002, 2); (0x6006, 20);
   (0xC001, 1); (0xC090, 1); (0x6000, 0x15); (0x6010, 0x46)]
  ++ registers_of_string 0x1010 "CAPAROC E4 12-24DC/1-10A"
  ++ registers_of_string 0x1020 "CAPAROC E2 12-24DC/2-10A".

Definition bench (replies : list Reply) : Sim := mkSim bench_regs replies.

(** Replies for the calls up to and including the two unlock writes. *)
Definition unlocked : list Reply := [Ack; Ack; Ack; Ack; Ack; Ack; Ack].

(** Replies under which every read-back differs from the written value. *)
Definition never_verified : list Reply :=
  unlocked ++ [Ack; Answer 0; Ack; Answer 0; Ack; Answer 0; Ack; Answer 0;
               Ack; Answer 0].

(** Replies under which the third read-back is the first to match. *)
Definition verified_at_third : list Reply :=
  unlocked ++ [Ack; Answer 0; Ack; Answer 0; Ack; Ack].

(** The bench device when the transport refuses the global unlock write. *)
Definition global_unlock_refused : Sim :=
  bench [Ack; Ack; Ack; Ack; Ack; Ack; Nak].

(** The bench device when the transport refuses the global re-lock write
    after a matching read-back. *)
Definition global_relock_refused : Sim :=
  bench (unlocked ++ [Ack; Ack; Nak]).

(** Number of writes to the nominal-current register of channel 1 of
    module 1. *)
Definition parameter_writes (evs : list Event) : nat :=
  List.length
    (filter (fun e => match e with
                      | EWrite 0xC050 _ _ => true
                      | _ => false
                      end) evs).

(** ** Reference definitions *)

(** The address expression shared by every module/channel-indexed register
    range (lines 319, 332, 391, 562, 584 and 592), for a range starting at
    [base]. *)
Definition register_address (base module_number channel_number : Z) : Z :=
  to_uint16 (base + (module_number - 1) * 4 + (channel_number - 1)).

(** The 32-byte field as the specification words it: each register gives
    its high byte, then its low byte, in register order. *)
Definition spec_register_bytes (values : list Z) : list ascii :=
  flat_map
    (fun v =>
       [ascii_of_N (Z.to_N ((v / 256) mod 256));
        ascii_of_N (Z.to_N (v mod 256))])
    values.

(** ... truncated at the first null byte, if there is one. *)
Fixpoint spec_until_null (bytes : list ascii) : list ascii :=
  match bytes with
  | [] => []
  | b :: bytes' =>
      if Ascii.eqb b Ascii.zero then [] else b :: spec_until_null bytes'
  end.

(** ** Shapes of runs *)

(** What the two validation calls that open every module/channel-indexed
    operation can do: the exception they end with, if any, and the reads
    they perform. *)
Inductive validation_trace (m c : Z) : option exn -> list Event -> Prop :=
| VModuleCountUnreadable :
    validation_trace m c (Some module_count_unreadable) [ERead 0x2000 None]
| VInvalidModule n :
    m < 1 \/ n < m ->
    validation_trace m c (Some (invalid_module_number m n))
      [ERead 0x2000 (Some n)]
| VModuleBeyond16 n :
    1 <= m <= n -> 16 < m ->
    validation_trace m c (Some (channel_count_unreadable m))
      [ERead 0x2000 (Some n)]
| VChannelCountUnreadable n :
    1 <= m <= n -> m <= 16 ->
    validation_trace m c (Some (channel_count_unreadable m))
      [ERead 0x2000 (Some n); ERead (0x2001 + (m - 1)) None]
| VInvalidChannel n k :
    1 <= m <= n -> m <= 16 -> c < 1 \/ k < c ->
    validation_trace m c (Some (invalid_channel_number c m k))
      [ERead 0x2000 (Some n); ERead (0x2001 + (m - 1)) (Some k)]
| VValid n k :
    1 <= m <= n -> m <= 16 -> 1 <= c <= k ->
    validation_trace m c None
      [ERead 0x2000 (Some n); ERead (0x2001 + (m - 1)) (Some k)].

(** What the product-name check of [set_nominal_current] (lines 309-314)
    can do. *)
Inductive product_check_trace (m : Z) : option exn -> list Event -> Prop :=
| PModuleCountUnreadable :
    product_check_trace m (Some module_count_unreadable) [ERead 0x2000 None]
| PInvalidModule n :
    m < 1 \/ n < m ->
    product_check_trace m (Some (invalid_module_number m n))
      [ERead 0x2000 (Some n)]
| PDialOnly n values :
    1 <= m <= n ->
    find "CAPAROC E2 12-24DC/2-10A" (string32_of_registers values) <> None ->
    product_check_trace m (Some dial_only_module)
      [ERead 0x2000 (Some n);
       EReadBlock (to_uint16 (0x1010 + (m - 1) * 0x10)) 16 (Some values)]
| PPass n q :
    1 <= m <= n ->
    (forall values, q = Some values ->
       find "CAPAROC E2 12-24DC/2-10A" (string32_of_registers values) = None) ->
    product_check_trace m None
      [ERead 0x2000 (Some n);
       EReadBlock (to_uint16 (0x1010 + (m - 1) * 0x10)) 16 q].

(** One unsuccessful pass through the write/verify loop body. *)
Inductive failed_attempt (a v : Z) : list Event -> Prop :=
| write_failed :
    failed_attempt a v [EWrite a v false; ESleep kDelay]
| verify_failed q :
    q <> Some v ->
    failed_attempt a v
      [EWrite a v true; ESleep kDelay; ERead a q; ESleep kDelay].

(** The pass that ends the loop: the write is acknowledged and the
    read-back equals the written value. *)
Definition verified_attempt (a v : Z) : list Event :=
  [EWrite a v true; ESleep kDelay; ERead a (Some v)].

(** Outcome of the loop started with [n] attempts left. *)
Definition loop_outcome {Conn} (a v : Z) (n : nat) (r : Run Conn bool) : Prop :=
  exists fails : list (list Event),
    Forall (failed_attempt a v) fails /\
    ((res r = Ok true /\ (List.length fails < n)%nat /\
      events r = (List.concat fails ++ verified_attempt a v)%list) \/
     (res r = Ok false /\ List.length fails = n /\
      events r = List.concat fails)).

(** The settling read and sleep (lines 322-328). *)
Definition settle_events (q : option Z) : list Event :=
  [ERead 0x6006 q;
   ESleep (match q with Some period => period | None => 100 end + 50)].

(** The two acknowledged unlock writes (lines 337-344). *)
Definition unlock_events (ga ca : Z) : list Event :=
  [EWrite ca 0 true; ESleep kDelay; EWrite ga 0 true; ESleep kDelay].

Section Handshake.

Context {Conn : Type} {T : ModbusConnection Conn}.

(** The connection is the result of two acknowledged writes of 1, to the
    global and then to the channel lock register. *)
Definition relocked (ga ca : Z) (conn : Conn) : Prop :=
  exists conn1 conn2,
    write_register conn1 ga 1 = (true, conn2) /\
    write_register conn2 ca 1 = (true, conn).

(** The exit paths of [set_nominal_current] from the settling read on:
    lock addresses [ga] and [ca], parameter address [na], value [v]; the
    connection left behind, the value returned and the events. *)
Inductive handshake_trace (ga ca na v : Z) (conn : Conn)
  : bool -> list Event -> Prop :=
| HChannelUnlockFailed q :
    handshake_trace ga ca na v conn false
      (settle_events q ++ [EWrite ca 0 false])
| HGlobalUnlockFailed q :
    handshake_trace ga ca na v conn false
      (settle_events q ++ [EWrite ca 0 true; ESleep kDelay; EWrite ga 0 false])
| HExhausted q fails b1 b2 :
    Forall (failed_attempt na v) fails -> List.length fails = kRetries ->
    (b1 = true -> b2 = true -> relocked ga ca conn) ->
    handshake_trace ga ca na v conn false
      (settle_events q ++ unlock_events ga ca ++ List.concat fails
       ++ [EWrite ga 1 b1; EWrite ca 1 b2])
| HGlobalRelockFailed q fails :
    Forall (failed_attempt na v) fails -> (List.length fails < kRetries)%nat ->
    handshake_trace ga ca na v conn false
      (settle_events q ++ unlock_events ga ca ++ List.concat fails
       ++ verified_attempt na v ++ [EWrite ga 1 false])
| HChannelRelockFailed q fails :
    Forall (failed_attempt na v) fails -> (List.length fails < kRetries)%nat ->
    handshake_trace ga ca na v conn false
      (settle_events q ++ unlock_events ga ca ++ List.concat fails
       ++ verified_attempt na v
       ++ [EWrite ga 1 true; ESleep kDelay; EWrite ca 1 false])
| HSuccess q fails :
    Forall (failed_attempt na v) fails -> (List.length fails < kRetries)%nat ->
    relocked ga ca conn ->
    handshake_trace ga ca na v conn true
      (settle_events q ++ unlock_events ga ca ++ List.concat fails
       ++ verified_attempt na v
       ++ [EWrite ga 1 true; ESleep kDelay; EWrite ca 1 true; ESleep 100]).

(** The runs of [set_nominal_current]. *)
Inductive snc_run (m c v : Z) (r : Run Conn bool) : Prop :=
| SncInvalid e evs :
    validation_trace m c (Some e) evs ->
    res r = Throw e -> events r = evs ->
    snc_run m c v r
| SncRefused ev1 e ev2 :
    validation_trace m c None ev1 ->
    product_check_trace m (Some e) ev2 ->
    res r = Throw e -> events r = (ev1 ++ ev2)%list ->
    snc_run m c v r
| SncHandshake ev1 ev2 b ev3 :
    validation_trace m c None ev1 ->
    product_check_trace m None ev2 ->
    handshake_trace 0xC001
      (to_uint16 (0xC090 + (m - 1) * 4 + (c - 1)))
      (to_uint16 (0xC050 + (m - 1) * 4 + (c - 1))) v (final r) b ev3 ->
    res r = Ok b -> events r = (ev1 ++ ev2 ++ ev3)%list ->
    snc_run m c v r.

End Handshake.

(** A write of 1 to one of the two lock registers. *)
Definition is_relock_write (ga ca : Z) (e : Event) : bool :=
  match e with
  | EWrite a x _ => (x =? 1) && ((a =? ga) || (a =? ca))
  | _ => false
  end.

(** The re-lock writes of a run against whether the value was verified
    and the value returned: [relock_summary ga ca verified returned writes]. *)
Inductive relock_summary (ga ca : Z) : bool -> bool -> list Event -> Prop :=
| RNotReached : relock_summary ga ca false false []
| RCleanup b1 b2 :
    relock_summary ga ca false false [EWrite ga 1 b1; EWrite ca 1 b2]
| RGlobalRefused :
    relock_summary ga ca true false [EWrite ga 1 false]
| RChannelRefused :
    relock_summary ga ca true false [EWrite ga 1 true; EWrite ca 1 false]
| RRelocked :
    relock_summary ga ca true true [EWrite ga 1 true; EWrite ca 1 true].

(** The validation policy on a run of an operation for module [m] and
    channel [c]: the module count is queried first and, when it admits [m],
    the channel count of [m] next; a count read in this run that excludes [m]
    (resp. a channel count that excludes [c]) ends the run in the exception
    that carries the value and the range; conversely an exception is raised
    before any write and is one of those two, caused by such a read, or
    reports an unreadable count, or is one of [refusals]. *)
Definition range_checked {Conn A} (refusals : list exn) (m c : Z)
  (r : Run Conn A) : Prop :=
  (exists q rest,
     events r = ERead 0x2000 q :: rest /\
     forall n, q = Some n -> 1 <= m <= n -> m <= 16 ->
       exists q' rest', rest = ERead (0x2001 + (m - 1)) q' :: rest') /\
  (forall n,
     In (ERead 0x2000 (Some n)) (events r) -> m < 1 \/ n < m ->
     res r = Throw (invalid_module_number m n)) /\
  (forall k,
     1 <= m <= 16 ->
     In (ERead (0x2001 + (m - 1)) (Some k)) (events r) -> c < 1 \/ k < c ->
     res r = Throw (invalid_channel_number c m k)) /\
  (forall e,
     res r = Throw e ->
     existsb is_write (events r) = false /\
     ((exists n, e = invalid_module_number m n /\
                 In (ERead 0x2000 (Some n)) (events r) /\ (m < 1 \/ n < m)) \/
      (exists k, e = invalid_channel_number c m k /\
                 In (ERead (0x2001 + (m - 1)) (Some k)) (events r) /\
                 (c < 1 \/ k < c)) \/
      e = module_count_unreadable \/
      e = channel_count_unreadable m \/
      In e refusals)).

(** Events the handshake can produce, by address. *)
Definition handshake_event (ga ca na : Z) (e : Event) : Prop :=
  match e with
  | ERead a _ => a = 0x6006 \/ a = na
  | EReadBlock _ _ _ => False
  | EWrite a _ _ => a = ga \/ a = ca \/ a = na
  | ESleep _ => True
  end.

(** ** Further library functions *)

(** Conversion to [uint32_t]. *)
Definition to_uint32 (x : Z) : Z := x mod 4294967296.

(** [static_cast<int16_t>] of a 16-bit word (two's complement). *)
Definition to_int16 (x : Z) : Z :=
  let u := x mod 65536 in
  if u <? 32768 then u else u - 65536.

(** Line 32 of [read_uint32]: [values[0]] is the high word. *)
Definition uint32_of_registers (values : list Z) : Z :=
  Z.lor (to_uint32 (Z.shiftl (nth 0 values 0) 16)) (nth 1 values 0).

(** Lines 64-67 of [write_uint32]: the two words sent, high word first. *)
Definition registers_of_uint32 (value : Z) : list Z :=
  [Z.land (Z.shiftr value 16) 0xFFFF; Z.land value 0xFFFF].

(** [conn.write_registers(address, count, values)], the remaining method of
    [ModbusConnection] that the library calls. *)
Class ModbusBlockWrite (Conn : Type) : Type := {
  write_registers : Conn -> Z -> Z -> list Z -> bool * Conn
}.

(** [std::tolower] on an [unsigned char], in the default "C" locale. *)
Definition tolower (c : ascii) : ascii :=
  let n := N_of_ascii c in
  if (65 <=? n)%N && (n <=? 90)%N then ascii_of_N (n + 32) else c.

(** [std::transform(s.begin(), s.end(), s.begin(), tolower)]. *)
Fixpoint transform_tolower (s : string) : string :=
  match s with
  | EmptyString => EmptyString
  | String c s' => String (tolower c) (transform_tolower s')
  end.

(** [find_registers] over a register table given as a list ([register_table]
    and [register_table_size], its length, are declared in the generated
    header); [name] is the name field of a table entry. *)
Definition find_registers {RegisterInfo : Type} (name : RegisterInfo -> string)
  (register_table : list RegisterInfo) (pattern : string)
  : list RegisterInfo :=
  let pattern_lower := transform_tolower pattern in
  fold_left
    (fun (result : list RegisterInfo) (i : nat) =>
       match nth_error register_table i with
       | Some reg =>
           let name_lower := transform_tolower (name reg) in
           match find pattern_lower name_lower with
           | Some _ => (result ++ [reg])%list
           | None => result
           end
       | None => result
       end)
    (seq 0 (List.length register_table)) [].

(** Total time slept in a run, in milliseconds. *)
Fixpoint total_sleep (evs : list Event) : Z :=
  match evs with
  | [] => 0
  | ESleep ms :: evs' => ms + total_sleep evs'
  | _ :: evs' => total_sleep evs'
  end.

Section LibraryRest.

Context {Conn : Type} {T : ModbusConnection Conn}.

Definition read_uint32 (address : Z) : M (option Z) :=
  values <- conn_read_registers address 2 ;;
  match values with
  | None => ret None
  | Some values => ret (Some (uint32_of_registers values))
  end.

Definition write_uint32 {W : ModbusBlockWrite Conn}
  (conn : Conn) (address value : Z) : bool * Conn :=
  write_registers conn address 2 (registers_of_uint32 value).

Definition reset_application_params_power_and_cb (value : Z) : M bool :=
  write_uint16 0x0010 value.

Definition global_channel_error_reset_all_cb (value : Z) : M bool :=
  write_uint16 0x0011 value.

Definition error_counter_reset_all_cb (value : Z) : M bool :=
  write_uint16 0x0012 value.

Definition reset_application_params_quint (value : Z) : M bool :=
  write_uint16 0x0020 value.

Definition get_product_name_power_module : M (option string) :=
  read_string32 0x1000.

Definition get_product_name_quint : M (option string) :=
  read_string32 0x1110.

Definition get_total_system_current : M (option Z) := read_uint16 0x6001.

Definition get_input_voltage : M (option Z) := read_uint16 0x6002.

Definition get_sum_of_nominal_currents : M (option Z) := read_uint16 0x6005.

Definition get_internal_temperature : M (option Z) :=
  val <- read_uint16 0x6009 ;;
  match val with
  | None => ret None
  | Some val => ret (Some (to_int16 val))
  end.

End LibraryRest.

(** ** The register catalogue *)

(** The enumerations named by the [switch] statements of
    [get_register_info]. *)
Inductive RegisterType : Type :=
| UINT16 | INT16 | UINT32 | INT32 | FLOAT | STRING32.

Inductive RegisterAccess : Type :=
| READ_ONLY | WRITE_ONLY | READ_WRITE.

Definition type_str (t : RegisterType) : string :=
  match t with
  | UINT16 => "UINT16"
  | INT16 => "INT16"
  | UINT32 => "UINT32"
  | INT32 => "INT32"
  | FLOAT => "FLOAT"
  | STRING32 => "STRING32"
  end.

Definition access_str (a : RegisterAccess) : string :=
  match a with
  | READ_ONLY => "RO"
  | WRITE_ONLY => "WO"
  | READ_WRITE => "RW"
  end.

(** One upper-case hexadecimal digit. *)
Definition hex_digit (d : Z) : ascii :=
  if d <? 10 then ascii_of_N (Z.to_N (48 + d))
  else ascii_of_N (Z.to_N (55 + d)).

(** [std::format("{:04X}", x)] for a [uint16_t] argument. *)
Definition format_hex04 (x : Z) : string :=
  String (hex_digit (x / 4096 mod 16))
    (String (hex_digit (x / 256 mod 16))
       (String (hex_digit (x / 16 mod 16))
          (String (hex_digit (x mod 16)) EmptyString))).

Definition newline : string := String (ascii_of_N 10) EmptyString.

Section RegisterTable.

(** The entry type of the register table is declared in the generated
    header; its fields are taken as they are used. *)
Context {RegisterInfo : Type}.
Variable reg_address : RegisterInfo -> Z.
Variable reg_num_registers : RegisterInfo -> Z.
Variable reg_type : RegisterInfo -> RegisterType.
Variable reg_access : RegisterInfo -> RegisterAccess.
Variable reg_name : RegisterInfo -> string.
Variable reg_description : RegisterInfo -> string.

(** Lines 172-185: the text for a table entry. *)
Definition register_info_text (reg : RegisterInfo) : string :=
  ("Address: 0x" ++ format_hex04 (reg_address reg)
   ++ " (" ++ format_uint (reg_address reg) ++ " dec)" ++ newline
   ++ "Registers: " ++ format_uint (reg_num_registers reg) ++ newline
   ++ "Type: " ++ type_str (reg_type reg) ++ newline
   ++ "Access: " ++ access_str (reg_access reg) ++ newline
   ++ "Name: " ++ reg_name reg ++ newline
   ++ "Description: " ++ reg_description reg)%string.

(** [get_register_info] over the table from entry [i] on. *)
Fixpoint get_register_info (register_table : list RegisterInfo) (address : Z)
  : string :=
  match register_table with
  | [] =>
      ("Register at address 0x" ++ format_hex04 address ++ " not found")%string
  | reg :: rest =>
      if reg_address reg =? address then register_info_text reg
      else get_register_info rest address
  end.

End RegisterTable.

(** ** Further observations and devices *)

(** A write to register [a]. *)
Definition is_write_to (a : Z) (e : Event) : bool :=
  match e with
  | EWrite a' _ _ => a' =? a
  | _ => false
  end.

(** A device whose successful single-register read reports the word the
    register holds. *)
Class FaithfulReads (Conn : Type) {T : ModbusConnection Conn}
  {H : HoldingRegisters Conn} : Type := {
  read_reports : forall conn a x conn',
    read_register conn a = (Some x, conn') -> holding conn' a = x
}.

(** A register file behind a transport that can only acknowledge or fail a
    call, following a script of booleans (exhausted: acknowledge). *)
Record Steady : Type := mkSteady {
  sregs : list (Z * Z);
  sacks : list bool
}.

Definition steady_next (s : Steady) : bool * Steady :=
  match sacks s with
  | [] => (true, s)
  | b :: rest => (b, mkSteady (sregs s) rest)
  end.

Definition steady_read_register (s : Steady) (a : Z) : option Z * Steady :=
  let (b, s') := steady_next s in
  if b then (Some (lookup (sregs s') a), s') else (None, s').

Definition steady_read_registers (s : Steady) (a count : Z)
  : option (list Z) * Steady :=
  let (b, s') := steady_next s in
  if b then
    (Some (map (fun i => lookup (sregs s') (a + Z.of_nat i))
             (seq 0 (Z.to_nat count))), s')
  else (None, s').

Definition steady_write_register (s : Steady) (a v : Z) : bool * Steady :=
  let (b, s') := steady_next s in
  if b then (true, mkSteady ((a, v) :: sregs s') (sacks s')) else (false, s').

#[export] Instance Steady_connection : ModbusConnection Steady := {
  read_register := steady_read_register;
  read_registers := steady_read_registers;
  write_register := steady_write_register
}.

(** The bench device behind such a transport. *)
Definition steady_bench (acks : list bool) : Steady := mkSteady bench_regs acks.

(** A device holding the two words of 0xDEADBEEF at 0x0100 and a
    temperature word of -5 degrees at 0x6009. *)
Definition words_device : Sim :=
  mkSim [(0x0100, 0xDEAD); (0x0101, 0xBEEF); (0x6009, 0xFFFB)] [].

(** A three-entry register table: address and name. *)
Definition sample_table : list (Z * string) :=
  [(0x2000, "Number of connected modules"%string);
   (0x6001, "Total System Current"%string);
   (0xC050, "Nominal current channel 1"%string)].

(** * Properties *)

(** ** Runs of the primitive operations *)

Section Runs.

Context {Conn : Type} {T : ModbusConnection Conn}.

Lemma read_uint16_run (conn : Conn) (a : Z) :
  read_uint16 a conn =
  mkRun (Ok (fst (read_register conn a))) (snd (read_register conn a))
        [ERead a (fst (read_register conn a))].
Proof.
  unfold read_uint16, bind, conn_read_register.
  destruct (read_register conn a) as [[v|] conn']; reflexivity.
Qed.

Lemma write_uint16_run (conn : Conn) (a v : Z) :
  write_uint16 a v conn =
  mkRun (Ok (fst (write_register conn a v))) (snd (write_register conn a v))
        [EWrite a v (fst (write_register conn a v))].
Proof.
  unfold write_uint16, conn_write_register.
  destruct (write_register conn a v); reflexivity.
Qed.

Lemma read_string32_run (conn : Conn) (a : Z) :
  read_string32 a conn =
  mkRun (Ok (option_map string32_of_registers (fst (read_registers conn a 16))))
        (snd (read_registers conn a 16))
        [EReadBlock a 16 (fst (read_registers conn a 16))].
Proof.
  unfold read_string32, bind, conn_read_registers.
  destruct (read_registers conn a 16) as [[v|] conn']; reflexivity.
Qed.

End Runs.

(** ** Address arithmetic *)

Lemma to_uint16_small (x : Z) : 0 <= x < 65536 -> to_uint16 x = x.
Proof. intros H. unfold to_uint16. apply Z.mod_small. exact H. Qed.

Lemma to_uint16_eq_offsets (base x y : Z) :
  0 <= x < 65536 -> 0 <= y < 65536 ->
  to_uint16 (base + x) = to_uint16 (base + y) -> x = y.
Proof.
  unfold to_uint16. intros Hx Hy H.
  assert (D : ((base + x) - (base + y)) mod 65536 = 0).
  { rewrite Zminus_mod, H, Z.sub_diag. reflexivity. }
  replace (base + x - (base + y)) with (x - y) in D by ring.
  apply Z.mod_divide in D; [|lia].
  destruct D as [k Hk]. lia.
Qed.

(** C7: for any base address, the mapping
    (module, channel) -> base + (module-1)*4 + (channel-1), taken as a 16-bit
    address, is injective over a topology of modules 1..N whose channel
    counts are at most 4. *)
Theorem register_address_injective
  (base N : Z) (channel_count : Z -> Z) (m c m' c' : Z) :
  (forall k, channel_count k <= 4) ->
  is_uint8 m -> is_uint8 m' ->
  1 <= m <= N -> 1 <= c <= channel_count m ->
  1 <= m' <= N -> 1 <= c' <= channel_count m' ->
  register_address base m c = register_address base m' c' ->
  m = m' /\ c = c'.
Proof.
  unfold register_address, is_uint8.
  intros Hcc Hm Hm' HmN Hc Hm'N Hc' H.
  pose proof (Hcc m). pose proof (Hcc m').
  rewrite <- !Z.add_assoc in H.
  apply to_uint16_eq_offsets in H; lia.
Qed.

(** The operations compute their register with this expression. *)
Lemma register_address_used {Conn : Type} {T : ModbusConnection Conn}
  (m c : Z) (on : bool) :
  get_nominal_current m c =
    (validate_module_number m ;; validate_channel_number m c ;;
     read_uint16 (register_address 0xC050 m c)) /\
  get_load_current m c =
    (validate_module_number m ;; validate_channel_number m c ;;
     read_uint16 (register_address 0x6050 m c)) /\
  control_channel m c on =
    (validate_module_number m ;; validate_channel_number m c ;;
     write_uint16 (register_address 0xC010 m c) (if on then 1 else 0)) /\
  get_channel_status m c =
    (validate_module_number m ;; validate_channel_number m c ;;
     val <- read_uint16 (register_address 0x6010 m c) ;;
     match val with
     | None => ret None
     | Some val => ret (Some (decode_channel_status val))
     end).
Proof. repeat split. Qed.

Lemma register_address_injective_witness : 2 = 2 /\ 1 = 1.
Proof.
  apply (register_address_injective 0xC050 16 (fun _ => 4) 2 1 2 1);
    unfold is_uint8; intros; try lia; reflexivity.
Defined.

(** ** Topology queries *)

Lemma channel_count_query_run
  {Conn : Type} {T : ModbusConnection Conn} (conn : Conn) (m : Z) :
  (m < 1 \/ 16 < m ->
   get_number_of_channels_for_module m conn = mkRun (Ok None) conn []) /\
  (1 <= m <= 16 ->
   get_number_of_channels_for_module m conn =
   mkRun (Ok (fst (read_register conn (0x2001 + (m - 1)))))
         (snd (read_register conn (0x2001 + (m - 1))))
         [ERead (0x2001 + (m - 1))
                (fst (read_register conn (0x2001 + (m - 1))))]).
Proof.
  unfold get_number_of_channels_for_module. split; intros H.
  - replace ((m <? 1) || (m >? 16)) with true; [reflexivity|].
    symmetry. apply orb_true_iff. rewrite Z.gtb_ltb, !Z.ltb_lt. lia.
  - replace ((m <? 1) || (m >? 16)) with false.
    + rewrite to_uint16_small by lia. apply read_uint16_run.
    + symmetry. apply orb_false_iff. rewrite Z.gtb_ltb, !Z.ltb_ge. lia.
Qed.

(** C10: for a module number 0 or above 16 the channel-count query fails
    without any transport call; for 1..16 it is exactly one register read at
    0x2001 + (module_number - 1), whose outcome it returns. *)
Theorem get_number_of_channels_for_module_guard
  {Conn : Type} {T : ModbusConnection Conn} (conn : Conn) (m : Z) :
  (m = 0 \/ 16 < m ->
   get_number_of_channels_for_module m conn = mkRun (Ok None) conn []) /\
  (1 <= m <= 16 ->
   get_number_of_channels_for_module m conn =
   mkRun (Ok (fst (read_register conn (0x2001 + (m - 1)))))
         (snd (read_register conn (0x2001 + (m - 1))))
         [ERead (0x2001 + (m - 1))
                (fst (read_register conn (0x2001 + (m - 1))))]).
Proof.
  split; intros H.
  - apply channel_count_query_run. lia.
  - apply channel_count_query_run. exact H.
Qed.

Lemma get_number_of_channels_for_module_guard_witness :
  get_number_of_channels_for_module 17 (bench []) =
    mkRun (Ok None) (bench []) [] /\
  events (get_number_of_channels_for_module 2 (bench [])) =
    [ERead 0x2002 (Some 2)].
Proof.
  split.
  - apply (proj1 (get_number_of_channels_for_module_guard (bench []) 17)).
    right. lia.
  - rewrite (proj2 (get_number_of_channels_for_module_guard (bench []) 2))
      by lia.
    reflexivity.
Defined.

(** ** Status decoding *)

Lemma land_pow2_testbit (val i : Z) :
  0 <= i -> negb (Z.land val (2 ^ i) =? 0) = Z.testbit val i.
Proof.
  intros Hi.
  assert (E : Z.land val (2 ^ i) = if Z.testbit val i then 2 ^ i else 0).
  { apply Z.bits_inj'. intros n Hn.
    rewrite Z.land_spec, Z.pow2_bits_eqb by exact Hi.
    destruct (Z.eqb_spec i n) as [->|Hne].
    - destruct (Z.testbit val n); simpl.
      + rewrite Z.pow2_bits_eqb, Z.eqb_refl by exact Hn. reflexivity.
      + rewrite Z.bits_0. reflexivity.
    - rewrite andb_false_r.
      destruct (Z.testbit val i).
      + rewrite Z.pow2_bits_eqb by exact Hi.
        symmetry. apply Z.eqb_neq. exact Hne.
      + rewrite Z.bits_0. reflexivity. }
  rewrite E. destruct (Z.testbit val i).
  - assert (0 < 2 ^ i) by (apply Z.pow_pos_nonneg; lia).
    destruct (Z.eqb_spec (2 ^ i) 0); [lia | reflexivity].
  - reflexivity.
Qed.

Lemma decode_global_status_bits (val : Z) :
  decode_global_status val =
  GlobalStatus.mk (Z.testbit val 0) (Z.testbit val 1) (Z.testbit val 2)
                  (Z.testbit val 3) (Z.testbit val 4).
Proof.
  unfold decode_global_status.
  change 0x01 with (2 ^ 0). change 0x02 with (2 ^ 1). change 0x04 with (2 ^ 2).
  change 0x08 with (2 ^ 3). change 0x10 with (2 ^ 4).
  rewrite !land_pow2_testbit by lia. reflexivity.
Qed.

Lemma decode_channel_status_bits (val : Z) :
  decode_channel_status val =
  ChannelStatus.mk (Z.testbit val 0) (Z.testbit val 1) (Z.testbit val 2)
                   (Z.testbit val 3) (Z.testbit val 4) (Z.testbit val 5)
                   (Z.testbit val 6).
Proof.
  unfold decode_channel_status.
  change 0x01 with (2 ^ 0). change 0x02 with (2 ^ 1). change 0x04 with (2 ^ 2).
  change 0x08 with (2 ^ 3). change 0x10 with (2 ^ 4). change 0x20 with (2 ^ 5).
  change 0x40 with (2 ^ 6).
  rewrite !land_pow2_testbit by lia. reflexivity.
Qed.

(** ** Validation *)

Section Validation.

Context {Conn : Type} {T : ModbusConnection Conn}.

Lemma bind_run {A B} (m : M A) (k : A -> M B) (conn : Conn) :
  bind m k conn =
  match res (m conn) with
  | Ok a =>
      mkRun (res (k a (final (m conn)))) (final (k a (final (m conn))))
            (events (m conn) ++ events (k a (final (m conn))))
  | Throw e => mkRun (Throw e) (final (m conn)) (events (m conn))
  end.
Proof. reflexivity. Qed.

Lemma range_test_true (x hi : Z) :
  x < 1 \/ hi < x -> (x <? 1) || (x >? hi) = true.
Proof. intros H. apply orb_true_iff. rewrite Z.gtb_ltb, !Z.ltb_lt. exact H. Qed.

Lemma range_test_false (x hi : Z) :
  1 <= x <= hi -> (x <? 1) || (x >? hi) = false.
Proof. intros H. apply orb_false_iff. rewrite Z.gtb_ltb, !Z.ltb_ge. lia. Qed.

Lemma range_cases (x hi : Z) : (x < 1 \/ hi < x) \/ 1 <= x <= hi.
Proof. lia. Qed.

Lemma validate_module_number_run (conn : Conn) (m : Z) :
  validate_module_number m conn =
  mkRun
    match fst (read_register conn 0x2000) with
    | None => Throw module_count_unreadable
    | Some n =>
        if (m <? 1) || (m >? n) then Throw (invalid_module_number m n)
        else Ok tt
    end
    (snd (read_register conn 0x2000))
    [ERead 0x2000 (fst (read_register conn 0x2000))].
Proof.
  unfold validate_module_number, get_number_of_connected_modules.
  rewrite bind_run, read_uint16_run. cbn [res final events fst snd].
  destruct (read_register conn 0x2000) as [[n|] conn']; cbn [fst snd].
  - destruct ((m <? 1) || (m >? n)); reflexivity.
  - reflexivity.
Qed.

Lemma validate_channel_number_run (conn : Conn) (m c : Z) :
  1 <= m <= 16 ->
  validate_channel_number m c conn =
  mkRun
    match fst (read_register conn (0x2001 + (m - 1))) with
    | None => Throw (channel_count_unreadable m)
    | Some k =>
        if (c <? 1) || (c >? k) then Throw (invalid_channel_number c m k)
        else Ok tt
    end
    (snd (read_register conn (0x2001 + (m - 1))))
    [ERead (0x2001 + (m - 1)) (fst (read_register conn (0x2001 + (m - 1))))].
Proof.
  intros Hm. unfold validate_channel_number.
  rewrite bind_run,
    (proj2 (channel_count_query_run conn m)) by exact Hm.
  cbn [res final events fst snd].
  destruct (read_register conn (0x2001 + (m - 1))) as [[k|] conn'];
    cbn [fst snd].
  - destruct ((c <? 1) || (c >? k)); reflexivity.
  - reflexivity.
Qed.

Lemma validate_channel_number_beyond (conn : Conn) (m c : Z) :
  m < 1 \/ 16 < m ->
  validate_channel_number m c conn =
  mkRun (Throw (channel_count_unreadable m)) conn [].
Proof.
  intros Hm. unfold validate_channel_number.
  rewrite bind_run,
    (proj1 (channel_count_query_run conn m)) by exact Hm.
  reflexivity.
Qed.

(** Every operation that starts with the two validation calls either ends
    in their exception, having only performed their reads, or continues
    after them. *)
Lemma validationP {B} (m c : Z) (k : M B) (conn : Conn) :
  exists oe evs conn',
    validation_trace m c oe evs /\
    (validate_module_number m ;; validate_channel_number m c ;; k) conn =
    match oe with
    | Some e => mkRun (Throw e) conn' evs
    | None =>
        mkRun (res (k conn')) (final (k conn')) (evs ++ events (k conn'))
    end.
Proof.
  rewrite bind_run, validate_module_number_run. cbn [res final events].
  destruct (read_register conn 0x2000) as [[n|] conn1]; cbn [fst snd].
  2:{ exists (Some module_count_unreadable), [ERead 0x2000 None], conn1.
      split; [constructor | reflexivity]. }
  destruct (range_cases m n) as [Hm|Hm].
  { rewrite range_test_true by exact Hm.
    exists (Some (invalid_module_number m n)), [ERead 0x2000 (Some n)], conn1.
    split; [constructor; exact Hm | reflexivity]. }
  rewrite range_test_false by exact Hm.
  rewrite bind_run.
  destruct (Z_le_gt_dec m 16) as [H16|H16].
  2:{ rewrite validate_channel_number_beyond by lia. cbn [res final events app].
      exists (Some (channel_count_unreadable m)), [ERead 0x2000 (Some n)], conn1.
      split; [constructor; lia | reflexivity]. }
  rewrite validate_channel_number_run by lia. cbn [res final events].
  destruct (read_register conn1 (0x2001 + (m - 1))) as [[k'|] conn2];
    cbn [fst snd].
  2:{ eexists _, _, conn2. split; [apply VChannelCountUnreadable with (n := n)|];
      [lia | lia | reflexivity]. }
  destruct (range_cases c k') as [Hc|Hc].
  { rewrite range_test_true by exact Hc.
    eexists _, _, conn2. split; [apply VInvalidChannel with (n := n) (k := k')|];
      [lia | lia | exact Hc | reflexivity]. }
  rewrite range_test_false by exact Hc.
  exists None, [ERead 0x2000 (Some n); ERead (0x2001 + (m - 1)) (Some k')], conn2.
  split; [apply VValid; lia|].
  cbn [res final events app]. reflexivity.
Qed.

End Validation.

(** ** Status queries *)

Lemma ERead_inj (a a' : Z) (q q' : option Z) :
  ERead a q = ERead a' q' -> a = a' /\ q = q'.
Proof. intros H. injection H. auto. Qed.

Lemma EReadBlock_inj (a a' n n' : Z) (q q' : option (list Z)) :
  EReadBlock a n q = EReadBlock a' n' q' -> a = a' /\ q = q'.
Proof. intros H. injection H. auto. Qed.

Lemma EWrite_inj (a a' v v' : Z) (b b' : bool) :
  EWrite a v b = EWrite a' v' b' -> a = a' /\ v = v' /\ b = b'.
Proof. intros H. injection H. auto. Qed.

Lemma Some_inj {A} (x y : A) : Some x = Some y -> x = y.
Proof. intros H. injection H. auto. Qed.

(** Splits an equation between two events into equations between their
    fields, without computing in the fields. *)
Ltac event_eq H :=
  first
    [ discriminate H
    | let H1 := fresh "Ha" in let H2 := fresh "Hq" in
      apply ERead_inj in H; destruct H as [H1 H2];
      first [discriminate H2 | apply Some_inj in H2 | idtac]
    | let H1 := fresh "Ha" in let H2 := fresh "Hq" in
      apply EReadBlock_inj in H; destruct H as [H1 H2];
      first [discriminate H2 | apply Some_inj in H2 | idtac]
    | let H1 := fresh "Ha" in let H2 := fresh "Hv" in let H3 := fresh "Hb" in
      apply EWrite_inj in H; destruct H as [H1 [H2 H3]] ].

(** Splits a membership hypothesis over an explicit event list, keeping
    the cases that arithmetic does not rule out. *)
Ltac in_events H :=
  cbn [In app] in H;
  repeat (destruct H as [H|H]; [try (event_eq H; try lia) |]);
  try (exfalso; exact H).

(** C6: status decoding is defined on every word and bit-exact: the five
    global flags are bits 0..4 and the seven channel flags bits 0..6 of the
    word read, whatever the other bits are; both queries return the decoded
    word whenever the status register was read. *)
Theorem status_decoding_bit_exact :
  (forall val : Z,
     decode_global_status val =
     GlobalStatus.mk (Z.testbit val 0) (Z.testbit val 1) (Z.testbit val 2)
                     (Z.testbit val 3) (Z.testbit val 4)) /\
  (forall val : Z,
     decode_channel_status val =
     ChannelStatus.mk (Z.testbit val 0) (Z.testbit val 1) (Z.testbit val 2)
                      (Z.testbit val 3) (Z.testbit val 4) (Z.testbit val 5)
                      (Z.testbit val 6)) /\
  (forall (Conn : Type) (T : ModbusConnection Conn) (conn : Conn),
     res (get_global_status conn) =
     Ok (option_map decode_global_status (fst (read_register conn 0x6000)))) /\
  (forall (Conn : Type) (T : ModbusConnection Conn) (conn : Conn)
          (m c val : Z),
     is_uint8 m -> is_uint8 c ->
     In (ERead (0x6010 + (m - 1) * 4 + (c - 1)) (Some val))
        (events (get_channel_status m c conn)) ->
     res (get_channel_status m c conn) = Ok (Some (decode_channel_status val))).
Proof.
  split; [exact decode_global_status_bits|].
  split; [exact decode_channel_status_bits|].
  split.
  - intros Conn T conn. unfold get_global_status.
    rewrite bind_run, read_uint16_run. cbn [res final events fst snd].
    destruct (read_register conn 0x6000) as [[v|] conn']; reflexivity.
  - intros Conn T conn m c val Hm Hc. unfold is_uint8 in Hm, Hc.
    unfold get_channel_status.
    destruct (validationP m c
                (val <- read_uint16
                          (to_uint16 (0x6010 + (m - 1) * 4 + (c - 1))) ;;
                 match val with
                 | None => ret None
                 | Some val => ret (Some (decode_channel_status val))
                 end) conn)
      as (oe & evs & conn' & Hv & ->).
    destruct Hv; cbn [res final events]; intros HIn; try (in_events HIn).
    rewrite to_uint16_small in * by lia.
    rewrite bind_run, read_uint16_run in *. cbn [res final events fst snd] in *.
    destruct (read_register conn' (0x6010 + (m - 1) * 4 + (c - 1)))
      as [[v|] conn'']; cbn [fst snd res events] in *;
      in_events HIn; subst; reflexivity.
Qed.

Lemma status_decoding_bit_exact_witness :
  res (get_channel_status 1 1 (bench [])) =
  Ok (Some (decode_channel_status 0x46)).
Proof.
  apply (proj2 (proj2 (proj2 status_decoding_bit_exact))).
  - unfold is_uint8. lia.
  - unfold is_uint8. lia.
  - vm_compute. right. right. left. reflexivity.
Defined.

(** ** String fields *)

Lemma register_chars_bytes (v : Z) :
  list_ascii_of_string (register_chars v) = spec_register_bytes [v].
Proof.
  unfold register_chars, spec_register_bytes. cbn [flat_map app list_ascii_of_string].
  change 255 with (Z.ones 8).
  rewrite !Z.land_ones, Z.shiftr_div_pow2 by lia.
  reflexivity.
Qed.

Lemma list_ascii_of_string_append (s t : string) :
  list_ascii_of_string (String.append s t) =
  (list_ascii_of_string s ++ list_ascii_of_string t)%list.
Proof.
  induction s as [|a s IH]; cbn [String.append list_ascii_of_string app].
  - reflexivity.
  - rewrite IH. reflexivity.
Qed.

Lemma length_list_ascii_of_string (s : string) :
  String.length s = List.length (list_ascii_of_string s).
Proof.
  induction s as [|a s IH]; cbn [String.length list_ascii_of_string List.length].
  - reflexivity.
  - rewrite IH. reflexivity.
Qed.

(** The loop of [read_string32] over an arbitrary index range. *)
Lemma string32_loop (values : list Z) (idx : list nat) (acc : string) :
  list_ascii_of_string
    (fold_left
       (fun (result : string) (i : nat) =>
          String.append result (register_chars (nth i values 0)))
       idx acc) =
  (list_ascii_of_string acc
   ++ spec_register_bytes (map (fun i => nth i values 0) idx))%list.
Proof.
  revert acc. induction idx as [|i idx IH]; intros acc; cbn [fold_left map].
  - unfold spec_register_bytes. cbn [flat_map]. rewrite app_nil_r. reflexivity.
  - rewrite IH, list_ascii_of_string_append, register_chars_bytes.
    unfold spec_register_bytes. cbn [flat_map app].
    rewrite <- app_assoc. reflexivity.
Qed.

Lemma map_nth_seq (values : list Z) :
  map (fun i => nth i values 0) (seq 0 (List.length values)) = values.
Proof.
  induction values as [|v values IH]; cbn [List.length seq map nth].
  - reflexivity.
  - rewrite <- seq_shift, map_map. cbn [nth]. rewrite IH. reflexivity.
Qed.

(** Trimming with [find] and [resize] keeps the bytes before the first
    null byte. *)
Lemma trim_until_null (s : string) :
  list_ascii_of_string
    match find_char Ascii.zero s with
    | Some end_ => resize s end_
    | None => s
    end =
  spec_until_null (list_ascii_of_string s).
Proof.
  unfold resize.
  induction s as [|a s IH];
    cbn [find_char list_ascii_of_string spec_until_null].
  - reflexivity.
  - destruct (Ascii.eqb a Ascii.zero).
    + reflexivity.
    + destruct (find_char Ascii.zero s) as [n|];
        cbn [String.substring list_ascii_of_string].
      * rewrite IH. reflexivity.
      * rewrite <- IH. reflexivity.
Qed.

Lemma spec_until_null_prefix (pre post : list ascii) :
  ~ In Ascii.zero pre ->
  spec_until_null (pre ++ Ascii.zero :: post) = pre.
Proof.
  induction pre as [|b pre IH]; intros Hpre; cbn [app spec_until_null].
  - rewrite Ascii.eqb_refl. reflexivity.
  - destruct (Ascii.eqb_spec b Ascii.zero) as [->|Hb].
    + exfalso. apply Hpre. left. reflexivity.
    + rewrite IH; [reflexivity|]. intros H. apply Hpre. right. exact H.
Qed.

Lemma spec_until_null_all (bytes : list ascii) :
  ~ In Ascii.zero bytes -> spec_until_null bytes = bytes.
Proof.
  induction bytes as [|b bytes IH]; intros Hb; cbn [spec_until_null].
  - reflexivity.
  - destruct (Ascii.eqb_spec b Ascii.zero) as [->|Hne].
    + exfalso. apply Hb. left. reflexivity.
    + rewrite IH; [reflexivity|]. intros H. apply Hb. right. exact H.
Qed.

Lemma length_spec_register_bytes (values : list Z) :
  List.length (spec_register_bytes values) = (2 * List.length values)%nat.
Proof.
  unfold spec_register_bytes.
  induction values as [|v values IH]; cbn [flat_map app List.length].
  - reflexivity.
  - rewrite IH. lia.
Qed.

Lemma string32_of_registers_spec (values : list Z) :
  List.length values = 16%nat ->
  list_ascii_of_string (string32_of_registers values) =
  spec_until_null (spec_register_bytes values).
Proof.
  intros Hlen. unfold string32_of_registers.
  rewrite trim_until_null, string32_loop. cbn [list_ascii_of_string app].
  rewrite <- Hlen, map_nth_seq. reflexivity.
Qed.

(** C8: when the transport delivers the 16 registers, [read_string32] is
    that one block read and returns the 32 bytes, high byte of each register
    first, in register order, cut before the first null byte; without a null
    byte it returns all 32 bytes. *)
Theorem read_string32_decoding
  {Conn : Type} {T : ModbusConnection Conn}
  (conn : Conn) (address : Z) (values : list Z) :
  List.length values = 16%nat ->
  fst (read_registers conn address 16) = Some values ->
  exists s : string,
    read_string32 address conn =
      mkRun (Ok (Some s)) (snd (read_registers conn address 16))
            [EReadBlock address 16 (Some values)] /\
    list_ascii_of_string s = spec_until_null (spec_register_bytes values) /\
    (forall pre post,
       spec_register_bytes values = (pre ++ Ascii.zero :: post)%list ->
       ~ In Ascii.zero pre ->
       list_ascii_of_string s = pre) /\
    (~ In Ascii.zero (spec_register_bytes values) ->
     list_ascii_of_string s = spec_register_bytes values /\
     String.length s = 32%nat).
Proof.
  intros Hlen Hread.
  exists (string32_of_registers values).
  pose proof (string32_of_registers_spec values Hlen) as Hs.
  split; [|split; [exact Hs | split]].
  - rewrite read_string32_run, Hread. reflexivity.
  - intros pre post Hbytes Hpre.
    rewrite Hs, Hbytes. apply spec_until_null_prefix. exact Hpre.
  - intros Hnone.
    rewrite length_list_ascii_of_string, Hs, spec_until_null_all by exact Hnone.
    split; [reflexivity|].
    rewrite length_spec_register_bytes, Hlen. reflexivity.
Qed.

Lemma read_string32_decoding_witness :
  exists s : string,
    read_string32 0x1010 (bench []) =
      mkRun (Ok (Some s)) (bench [])
            [EReadBlock 0x1010 16
               (Some [17217; 20545; 21071; 17184; 17716; 8241; 12845; 12852;
                      17475; 12081; 11569; 12353; 0; 0; 0; 0])] /\
    list_ascii_of_string s =
      list_ascii_of_string "CAPAROC E4 12-24DC/1-10A".
Proof.
  destruct (read_string32_decoding (bench []) 0x1010
              [17217; 20545; 21071; 17184; 17716; 8241; 12845; 12852;
               17475; 12081; 11569; 12353; 0; 0; 0; 0])
    as (s & Hrun & Hs & _); [reflexivity | reflexivity |].
  exists s. split; [exact Hrun | exact Hs].
Defined.

(** ** The protected write *)

Section ProtectedWrite.
Context {Conn : Type} {T : ModbusConnection Conn}.

Lemma sleep_for_run (conn : Conn) (ms : Z) :
  sleep_for ms conn = mkRun (Ok tt) conn [ESleep ms].
Proof. reflexivity. Qed.

(** The loop makes failed passes until one verifies or none is left. *)
Lemma write_verify_loopP (a v : Z) (n : nat) (conn : Conn) :
  loop_outcome a v n (write_verify_loop a v n conn).
Proof.
  revert conn. induction n as [|n IH]; intros conn.
  - exists []. split; [constructor|]. right. repeat split.
  - cbn [write_verify_loop].
    rewrite bind_run, write_uint16_run. cbn [res final events fst snd].
    destruct (write_register conn a v) as [[|] conn1]; cbn [fst snd negb].
    + rewrite bind_run, sleep_for_run. cbn [res final events].
      rewrite bind_run, read_uint16_run. cbn [res final events fst snd].
      destruct (read_register conn1 a) as [q conn2]; cbn [fst snd].
      destruct (match q with Some x => x =? v | None => false end) eqn:Hq.
      * exists []. split; [constructor|]. left.
        destruct q as [x|]; [|discriminate Hq].
        apply Z.eqb_eq in Hq. subst x. repeat split. cbn. lia.
      * rewrite bind_run, sleep_for_run. cbn [res final events].
        destruct (IH conn2) as (fails & Hf & Hout).
        exists ([EWrite a v true; ESleep kDelay; ERead a q; ESleep kDelay] :: fails).
        split.
        { constructor; [|exact Hf]. constructor. intros ->.
          rewrite Z.eqb_refl in Hq. discriminate Hq. }
        cbn [List.concat List.length app].
        destruct Hout as [(Hr & Hl & He)|(Hr & Hl & He)]; [left|right];
          rewrite Hr, He; repeat split; lia.
    + rewrite bind_run, sleep_for_run. cbn [res final events].
      destruct (IH conn1) as (fails & Hf & Hout).
      exists ([EWrite a v false; ESleep kDelay] :: fails).
      split; [constructor; [constructor | exact Hf]|].
      cbn [List.concat List.length app].
      destruct Hout as [(Hr & Hl & He)|(Hr & Hl & He)]; [left|right];
        rewrite Hr, He; repeat split; lia.
Qed.

Lemma product_checkP {B} (m : Z) (k : M B) (conn : Conn) :
  exists oe evs conn',
    product_check_trace m oe evs /\
    (product_name_opt <- get_product_name_module m ;;
     if match product_name_opt with
        | Some product_name =>
            match find "CAPAROC E2 12-24DC/2-10A" product_name with
            | Some _ => true
            | None => false
            end
        | None => false
        end
     then throw dial_only_module
     else k) conn =
    match oe with
    | Some e => mkRun (Throw e) conn' evs
    | None =>
        mkRun (res (k conn')) (final (k conn')) (evs ++ events (k conn'))
    end.
Proof.
  rewrite bind_run. unfold get_product_name_module.
  rewrite bind_run, validate_module_number_run. cbn [res final events].
  destruct (read_register conn 0x2000) as [[n|] conn1]; cbn [fst snd].
  2:{ exists (Some module_count_unreadable), [ERead 0x2000 None], conn1.
      split; [constructor | reflexivity]. }
  destruct (range_cases m n) as [Hm|Hm].
  { rewrite range_test_true by exact Hm.
    exists (Some (invalid_module_number m n)), [ERead 0x2000 (Some n)], conn1.
    split; [constructor; exact Hm | reflexivity]. }
  rewrite range_test_false by exact Hm.
  rewrite read_string32_run. cbn [res final events app].
  destruct (read_registers conn1 (to_uint16 (0x1010 + (m - 1) * 0x10)) 16)
    as [[values|] conn2]; cbn [fst snd option_map].
  - destruct (find "CAPAROC E2 12-24DC/2-10A" (string32_of_registers values))
      as [pos|] eqn:Hfind.
    + eexists (Some dial_only_module), _, conn2.
      split; [apply PDialOnly with (n := n) (values := values)|].
      * exact Hm.
      * rewrite Hfind. discriminate.
      * reflexivity.
    + eexists None, _, conn2.
      split; [apply PPass with (n := n) (q := Some values)|].
      * exact Hm.
      * intros values' Hv. apply Some_inj in Hv. subst values'. exact Hfind.
      * reflexivity.
  - eexists None, _, conn2.
    split; [apply PPass with (n := n) (q := None)|].
    + exact Hm.
    + intros values' Hv. discriminate Hv.
    + reflexivity.
Qed.

(** Every run of [set_nominal_current] has one of the shapes of
    [snc_run]. *)
Lemma set_nominal_currentP (m c v : Z) (conn : Conn) :
  snc_run m c v (set_nominal_current m c v conn).
Proof.
  unfold set_nominal_current.
  match goal with
  | |- snc_run _ _ _ ((_ ;; _ ;; ?k) _) =>
      destruct (validationP m c k conn) as (oe & ev1 & conn1 & Hv & ->)
  end.
  destruct oe as [e|].
  { eapply SncInvalid; [exact Hv | reflexivity | reflexivity]. }
  match goal with
  | |- context [bind (get_product_name_module m) (fun p => if _ then _ else ?k)] =>
      destruct (product_checkP m k conn1) as (oe & ev2 & conn2 & Hp & ->)
  end.
  destruct oe as [e|].
  { eapply SncRefused; [exact Hv | exact Hp | reflexivity | reflexivity]. }
  set (ga := 0xC001).
  set (ca := to_uint16 (0xC090 + (m - 1) * 4 + (c - 1))).
  set (na := to_uint16 (0xC050 + (m - 1) * 4 + (c - 1))).
  cbn [res final events].
  match goal with
  | |- context [res (?h conn2)] =>
      assert (Hh : exists b ev3,
                 handshake_trace ga ca na v (final (h conn2)) b ev3 /\
                 res (h conn2) = Ok b /\ events (h conn2) = ev3);
      [| destruct Hh as (b & ev3 & Hh & Hres & Hev);
         eapply SncHandshake;
         [exact Hv | exact Hp | exact Hh | exact Hres
         | cbn [events]; rewrite Hev; reflexivity] ]
  end.
  rewrite bind_run, read_uint16_run. cbn [res final events fst snd].
  destruct (read_register conn2 0x6006) as [q conn3]; cbn [fst snd].
  rewrite bind_run, sleep_for_run. cbn [res final events].
  rewrite bind_run, write_uint16_run. cbn [res final events fst snd].
  destruct (write_register conn3 ca 0) as [[|] conn4]; cbn [fst snd negb].
  2:{ do 2 eexists. split; [|split; reflexivity].
      apply (HChannelUnlockFailed ga ca na v _ q). }
  rewrite bind_run, sleep_for_run. cbn [res final events].
  rewrite bind_run, write_uint16_run. cbn [res final events fst snd].
  destruct (write_register conn4 ga 0) as [[|] conn5]; cbn [fst snd negb].
  2:{ do 2 eexists. split; [|split; reflexivity].
      apply (HGlobalUnlockFailed ga ca na v _ q). }
  rewrite bind_run, sleep_for_run. cbn [res final events].
  rewrite bind_run.
  destruct (write_verify_loopP na v kRetries conn5)
    as (fails & Hf & [(Hr & Hl & He)|(Hr & Hl & He)]);
    rewrite Hr, He; cbn [negb].
  - rewrite bind_run, write_uint16_run. cbn [res final events fst snd].
    destruct (write_register (final (write_verify_loop na v kRetries conn5)) ga 1)
      as [[|] conn6] eqn:Hg; cbn [fst snd negb].
    2:{ do 2 eexists. split; [|split; reflexivity].
        cbn [app]. rewrite <- app_assoc.
        apply (HGlobalRelockFailed ga ca na v _ q fails Hf Hl). }
    rewrite bind_run, sleep_for_run. cbn [res final events].
    rewrite bind_run, write_uint16_run. cbn [res final events fst snd].
    destruct (write_register conn6 ca 1) as [[|] conn7] eqn:Hc;
      cbn [fst snd negb].
    2:{ do 2 eexists. split; [|split; reflexivity].
        cbn [app]. rewrite <- app_assoc.
        apply (HChannelRelockFailed ga ca na v _ q fails Hf Hl). }
    rewrite bind_run, sleep_for_run. cbn [res final events ret].
    do 2 eexists. split; [|split; reflexivity].
    cbn [app]. rewrite <- app_assoc.
    apply (HSuccess ga ca na v _ q fails Hf Hl).
    exists (final (write_verify_loop na v kRetries conn5)), conn6.
    split; assumption.
  - rewrite bind_run, write_uint16_run. cbn [res final events fst snd].
    destruct (write_register (final (write_verify_loop na v kRetries conn5)) ga 1)
      as [b1 conn6] eqn:Hg; cbn [fst snd].
    rewrite bind_run, write_uint16_run. cbn [res final events fst snd].
    destruct (write_register conn6 ca 1) as [b2 conn7] eqn:Hc; cbn [fst snd].
    cbn [ret res final events].
    do 2 eexists. split; [|split; reflexivity].
    cbn [app]. 
    apply (HExhausted ga ca na v _ q fails b1 b2 Hf Hl).
    intros -> ->.
    exists (final (write_verify_loop na v kRetries conn5)), conn6.
    split; assumption.
Qed.
End ProtectedWrite.

(** ** The module/channel-indexed operations *)

Lemma validation_trace_valid (m c : Z) (evs : list Event) :
  validation_trace m c None evs ->
  exists n k,
    1 <= m <= n /\ m <= 16 /\ 1 <= c <= k /\
    evs = [ERead 0x2000 (Some n); ERead (0x2001 + (m - 1)) (Some k)].
Proof.
  intros H. remember None as oe eqn:E.
  destruct H; try discriminate E.
  exists n, k. auto.
Qed.

Lemma validation_trace_only_reads (m c : Z) (oe : option exn) (evs : list Event) :
  validation_trace m c oe evs -> forallb is_read evs = true.
Proof. intros H. destruct H; reflexivity. Qed.

Lemma product_check_trace_only_reads (m : Z) (oe : option exn) (evs : list Event) :
  product_check_trace m oe evs -> forallb is_read evs = true.
Proof. intros H. destruct H; reflexivity. Qed.

Lemma product_check_trace_pass (m : Z) (evs : list Event) :
  product_check_trace m None evs ->
  exists n q,
    1 <= m <= n /\
    (forall values, q = Some values ->
       find "CAPAROC E2 12-24DC/2-10A" (string32_of_registers values) = None) /\
    evs = [ERead 0x2000 (Some n);
           EReadBlock (to_uint16 (0x1010 + (m - 1) * 0x10)) 16 q].
Proof.
  intros H. remember None as oe eqn:E.
  destruct H; try discriminate E.
  exists n, q. auto.
Qed.

Lemma failed_attempts_events (a v : Z) (fails : list (list Event)) (e : Event) :
  Forall (failed_attempt a v) fails -> In e (List.concat fails) ->
  e = EWrite a v false \/ e = EWrite a v true \/ e = ESleep kDelay \/
  exists q, q <> Some v /\ e = ERead a q.
Proof.
  intros Hf. induction Hf as [|f fails Hfa Hf IH]; cbn [List.concat]; intros HIn.
  - destruct HIn.
  - apply in_app_or in HIn. destruct HIn as [HIn|HIn]; [|exact (IH HIn)].
    destruct Hfa; cbn [In] in HIn.
    + intuition (subst; auto).
    + intuition (subst; eauto 6).
Qed.

Section Operations.
Context {Conn : Type} {T : ModbusConnection Conn}.

Lemma handshake_trace_events (ga ca na v : Z) (conn : Conn) (b : bool)
  (evs : list Event) (e : Event) :
  handshake_trace ga ca na v conn b evs -> In e evs ->
  handshake_event ga ca na e.
Proof.
  intros H HIn.
  assert (Hfails : forall fails, Forall (failed_attempt na v) fails ->
                     In e (List.concat fails) -> handshake_event ga ca na e).
  { intros fails Hf Hc.
    destruct (failed_attempts_events na v fails e Hf Hc)
      as [->|[->|[->|(q & _ & ->)]]]; cbn; auto. }
  destruct H; unfold settle_events, unlock_events, verified_attempt in HIn;
    rewrite ?in_app_iff in HIn; cbn [In] in HIn;
    intuition (subst; cbn; eauto).
Qed.


(** C9: on every run that gets past validation and the product check, the
    only calls before the first write are reads; the last of them reads the
    maximum bus-cycle register 0x6006, and the run then sleeps for that
    period (100 when the read failed) plus 50 ms immediately before the
    first lock write, the unlock of the channel lock register. *)
Theorem settle_before_first_lock_write (conn : Conn) (m c v : Z) (b : bool) :
  res (set_nominal_current m c v conn) = Ok b ->
  exists pre q ok rest,
    events (set_nominal_current m c v conn) =
      (pre ++ ERead 0x6006 q
           :: ESleep (match q with Some period => period | None => 100 end + 50)
           :: EWrite (to_uint16 (0xC090 + (m - 1) * 4 + (c - 1))) 0 ok
           :: rest)%list /\
    forallb is_read pre = true.
Proof.
  intros Hres.
  destruct (set_nominal_currentP m c v conn)
    as [e evs Hv He Hev | ev1 e ev2 Hv Hp He Hev | ev1 ev2 b' ev3 Hv Hp Hh Hb Hev];
    try congruence.
  assert (Hpre : forallb is_read (ev1 ++ ev2) = true).
  { rewrite forallb_app, (validation_trace_only_reads _ _ _ _ Hv),
      (product_check_trace_only_reads _ _ _ Hp). reflexivity. }
  rewrite Hev, app_assoc.
  destruct Hh; unfold settle_events, unlock_events; cbn [app];
    do 4 eexists; (split; [reflexivity | exact Hpre]).
Qed.

(** C5: when the product name read in this call contains the dial-only
    model string, [set_nominal_current] throws the dial-only
    [invalid_argument] and the run has issued no write at all. *)
Theorem dial_only_module_refused (conn : Conn) (m c v : Z) (values : list Z) :
  In (EReadBlock (to_uint16 (0x1010 + (m - 1) * 0x10)) 16 (Some values))
     (events (set_nominal_current m c v conn)) ->
  find "CAPAROC E2 12-24DC/2-10A" (string32_of_registers values) <> None ->
  res (set_nominal_current m c v conn) = Throw dial_only_module /\
  existsb is_write (events (set_nominal_current m c v conn)) = false.
Proof.
  intros HIn Hdial.
  destruct (set_nominal_currentP m c v conn)
    as [e evs Hv He Hev | ev1 e ev2 Hv Hp He Hev | ev1 ev2 b' ev3 Hv Hp Hh Hb Hev];
    rewrite Hev in HIn |- *.
  - exfalso. destruct Hv; in_events HIn.
  - apply validation_trace_valid in Hv. destruct Hv as (n & k & _ & _ & _ & ->).
    remember (Some e) as oe eqn:E.
    destruct Hp; try discriminate E; apply Some_inj in E; subst e;
      try solve [exfalso; in_events HIn].
    split; [exact He | reflexivity].
  - exfalso.
    apply validation_trace_valid in Hv. destruct Hv as (n & k & _ & _ & _ & ->).
    apply product_check_trace_pass in Hp.
    destruct Hp as (n' & q & _ & Hq & ->).
    cbn [app In] in HIn.
    destruct HIn as [HIn|[HIn|[HIn|[HIn|HIn]]]]; try discriminate HIn.
    + apply EReadBlock_inj in HIn. destruct HIn as [_ HIn].
      exact (Hdial (Hq values HIn)).
    + exact (handshake_trace_events _ _ _ _ _ _ _ _ Hh HIn).
Qed.

(** The write/verify loop on its own consists of failed passes, at most
    [kRetries] of them, and ends either right after the first pass whose
    read-back equals the written value, returning true, or after the last
    failed pass, returning false; [set_nominal_current] returns false
    whenever no read-back of the parameter register matched. *)
Theorem write_verify_loop_bounded :
  (forall (conn : Conn) (a v : Z),
     loop_outcome a v kRetries (write_verify_loop a v kRetries conn)) /\
  (forall (conn : Conn) (m c v : Z) (b : bool),
     res (set_nominal_current m c v conn) = Ok b ->
     ~ In (ERead (to_uint16 (0xC050 + (m - 1) * 4 + (c - 1))) (Some v))
          (events (set_nominal_current m c v conn)) ->
     b = false).
Proof.
  split.
  - intros conn a v. apply write_verify_loopP.
  - intros conn m c v b Hres Hno.
    destruct (set_nominal_currentP m c v conn)
      as [e evs Hv He Hev | ev1 e ev2 Hv Hp He Hev | ev1 ev2 b' ev3 Hv Hp Hh Hb Hev];
      try congruence.
    assert (b' = b) by congruence. subst b'.
    destruct Hh; try reflexivity.
    exfalso. apply Hno. rewrite Hev.
    unfold verified_attempt. rewrite !in_app_iff. cbn [In]. tauto.
Qed.

Lemma relock_filter_reads (ga ca : Z) (evs : list Event) :
  forallb is_read evs = true -> filter (is_relock_write ga ca) evs = [].
Proof.
  induction evs as [|e evs IH]; cbn [forallb filter]; intros H.
  - reflexivity.
  - apply andb_true_iff in H. destruct H as [He H].
    destruct e; try discriminate He; cbn [is_relock_write]; exact (IH H).
Qed.

Lemma relock_filter_other (ga ca a x : Z) (b : bool) :
  a <> ga -> a <> ca -> is_relock_write ga ca (EWrite a x b) = false.
Proof.
  intros Hg Hc. cbn [is_relock_write].
  apply Z.eqb_neq in Hg, Hc. rewrite Hg, Hc. apply andb_false_r.
Qed.

Lemma relock_filter_unlock (ga ca a : Z) (b : bool) :
  is_relock_write ga ca (EWrite a 0 b) = false.
Proof. reflexivity. Qed.

Lemma relock_filter_global (ga ca : Z) (b : bool) :
  is_relock_write ga ca (EWrite ga 1 b) = true.
Proof. cbn [is_relock_write]. rewrite !Z.eqb_refl. reflexivity. Qed.

Lemma relock_filter_channel (ga ca : Z) (b : bool) :
  is_relock_write ga ca (EWrite ca 1 b) = true.
Proof.
  cbn [is_relock_write]. rewrite (Z.eqb_refl ca), orb_true_r. reflexivity.
Qed.

Lemma relock_filter_fails (ga ca na v : Z) (fails : list (list Event)) :
  na <> ga -> na <> ca -> Forall (failed_attempt na v) fails ->
  filter (is_relock_write ga ca) (List.concat fails) = [].
Proof.
  intros Hg Hc Hf. induction Hf as [|f fails Hfa Hf IH]; cbn [List.concat].
  - reflexivity.
  - rewrite filter_app, IH, app_nil_r.
    destruct Hfa; cbn [filter]; rewrite !relock_filter_other by assumption;
      reflexivity.
Qed.

(** Re-lock writes and verification along the handshake. *)
Lemma handshake_trace_relock (ga ca na v : Z) (conn : Conn) (b : bool)
  (evs : list Event) :
  na <> ga -> na <> ca -> na <> 0x6006 ->
  handshake_trace ga ca na v conn b evs ->
  exists verified : bool,
    (verified = true <-> In (ERead na (Some v)) evs) /\
    relock_summary ga ca verified b (filter (is_relock_write ga ca) evs).
Proof.
  intros Hg Hc Hs H.
  assert (Hnf : forall fails, Forall (failed_attempt na v) fails ->
                  ~ In (ERead na (Some v)) (List.concat fails)).
  { intros fails Hf HIn.
    destruct (failed_attempts_events na v fails _ Hf HIn)
      as [E|[E|[E|(q & Hq & E)]]]; try discriminate E.
    apply ERead_inj in E. destruct E as [_ E]. congruence. }
  destruct H; unfold settle_events, unlock_events, verified_attempt;
    rewrite ?filter_app, ?(relock_filter_fails ga ca na v fails) by assumption;
    cbn [filter app];
    rewrite ?relock_filter_unlock, ?relock_filter_global,
      ?relock_filter_channel, ?(relock_filter_other ga ca na) by assumption;
    cbn [app].
  - exists false. split; [|constructor].
    split; [discriminate|]. intros HIn. exfalso. in_events HIn.
  - exists false. split; [|constructor].
    split; [discriminate|]. intros HIn. exfalso. in_events HIn.
  - exists false. split; [|constructor].
    split; [discriminate|]. intros HIn. exfalso.
    cbn [In] in HIn. rewrite ?in_app_iff in HIn. cbn [In] in HIn.
    specialize (Hnf fails H).
    repeat match goal with
           | H : _ \/ _ |- _ => destruct H
           | H : ERead _ _ = ERead _ _ |- _ =>
               apply ERead_inj in H; destruct H
           end; try discriminate; try tauto; congruence.
  - exists true. split; [|constructor].
    split; [intros _|reflexivity].
    cbn [In]. rewrite ?in_app_iff. cbn [In]. tauto.
  - exists true. split; [|constructor].
    split; [intros _|reflexivity].
    cbn [In]. rewrite ?in_app_iff. cbn [In]. tauto.
  - exists true. split; [|constructor].
    split; [intros _|reflexivity].
    cbn [In]. rewrite ?in_app_iff. cbn [In]. tauto.
Qed.

(** C3 (amended): the lock registers receive at most one write of 1 each;
    without a matching read-back the function returns false whatever the
    cleanup writes return; with a matching read-back it returns true exactly
    when both re-lock writes are acknowledged, and false when the global or
    the channel re-lock write is refused. *)
Theorem relock_outcome (conn : Conn) (m c v : Z) (b : bool) :
  is_uint8 m -> is_uint8 c ->
  res (set_nominal_current m c v conn) = Ok b ->
  exists verified : bool,
    (verified = true <->
     In (ERead (to_uint16 (0xC050 + (m - 1) * 4 + (c - 1))) (Some v))
        (events (set_nominal_current m c v conn))) /\
    relock_summary 0xC001 (to_uint16 (0xC090 + (m - 1) * 4 + (c - 1)))
      verified b
      (filter
         (is_relock_write 0xC001 (to_uint16 (0xC090 + (m - 1) * 4 + (c - 1))))
         (events (set_nominal_current m c v conn))).
Proof.
  unfold is_uint8. intros Hm Hc Hres.
  destruct (set_nominal_currentP m c v conn)
    as [e evs Hv He Hev | ev1 e ev2 Hv Hp He Hev | ev1 ev2 b' ev3 Hv Hp Hh Hb Hev];
    try congruence.
  assert (b' = b) by congruence. subst b'.
  rewrite Hev, !filter_app,
    (relock_filter_reads _ _ ev1 (validation_trace_only_reads _ _ _ _ Hv)),
    (relock_filter_reads _ _ ev2 (product_check_trace_only_reads _ _ _ Hp)).
  cbn [app].
  apply validation_trace_valid in Hv.
  destruct Hv as (n & k & Hmn & Hm16 & Hck & ->).
  apply product_check_trace_pass in Hp. destruct Hp as (n' & q & _ & _ & ->).
  rewrite !to_uint16_small in * by lia.
  apply handshake_trace_relock in Hh; try lia.
  destruct Hh as (verified & Hver & Hsum).
  exists verified. split; [|exact Hsum].
  rewrite Hver. cbn [app In]. split; [tauto|].
  intros HIn. in_events HIn. exact HIn.
Qed.

Lemma locks_distinct (m c : Z) :
  1 <= m <= 16 -> 1 <= c < 256 ->
  to_uint16 (0xC090 + (m - 1) * 4 + (c - 1)) <> 0xC001.
Proof. intros Hm Hc. rewrite to_uint16_small by lia. lia. Qed.

(** A refused lock write contradicts the assumption [Hacks] that none
    was refused. *)
Ltac refused_ack Hacks a x :=
  exfalso;
  let Hax := fresh "Hax" in
  pose proof (Hacks a x) as Hax;
  match type of Hax with
  | ?P -> _ =>
      let HIn := fresh "HIn" in
      assert (HIn : P)
        by (rewrite ?in_app_iff; cbn [In];
            repeat (first [left; reflexivity | right]));
      destruct (Hax HIn) as [? ?]; congruence
  end.

(** On every returning run in which the transport refused no write to a
    lock register (success or verification exhaustion), both the global lock
    register 0xC001 and the channel lock register hold 1 when the function
    returns. *)
Theorem locks_restored {H : HoldingRegisters Conn}
  (conn : Conn) (m c v : Z) (b : bool) :
  is_uint8 m -> is_uint8 c ->
  res (set_nominal_current m c v conn) = Ok b ->
  (forall a x,
     In (EWrite a x false) (events (set_nominal_current m c v conn)) ->
     a <> 0xC001 /\ a <> to_uint16 (0xC090 + (m - 1) * 4 + (c - 1))) ->
  holding (final (set_nominal_current m c v conn)) 0xC001 = 1 /\
  holding (final (set_nominal_current m c v conn))
          (to_uint16 (0xC090 + (m - 1) * 4 + (c - 1))) = 1.
Proof.
  unfold is_uint8. intros Hm Hc Hres Hacks.
  set (ca := to_uint16 (0xC090 + (m - 1) * 4 + (c - 1))) in *.
  destruct (set_nominal_currentP m c v conn)
    as [e evs Hv He Hev | ev1 e ev2 Hv Hp He Hev | ev1 ev2 b' ev3 Hv Hp Hh Hb Hev];
    try congruence.
  apply validation_trace_valid in Hv.
  destruct Hv as (n & k & Hmn & Hm16 & Hck & _).
  pose proof (locks_distinct m c ltac:(lia) ltac:(lia)) as Hd.
  fold ca in Hh, Hd.
  assert (Hev3 : forall a x, In (EWrite a x false) ev3 ->
                   a <> 0xC001 /\ a <> ca).
  { intros a x HIn. apply (Hacks a x). rewrite Hev, !in_app_iff. auto. }
  assert (Hrel : relocked 0xC001 ca (final (set_nominal_current m c v conn))).
  { destruct Hh as [q|q|q fails b1 b2 Hf Hl Hrel|q fails Hf Hl|q fails Hf Hl
                   |q fails Hf Hl Hrel].
    - refused_ack Hev3 ca 0.
    - refused_ack Hev3 0xC001 0.
    - apply Hrel.
      + destruct b1; [reflexivity | refused_ack Hev3 0xC001 1].
      + destruct b2; [reflexivity | refused_ack Hev3 ca 1].
    - refused_ack Hev3 0xC001 1.
    - refused_ack Hev3 ca 1.
    - exact Hrel. }
  destruct Hrel as (conn1 & conn2 & Hg & Hc').
  split.
  - rewrite (write_frame _ _ _ _ _ 0xC001 Hc') by (intros E; exact (Hd (eq_sym E))).
    exact (write_stores _ _ _ _ Hg).
  - exact (write_stores _ _ _ _ Hc').
Qed.

(** The first clause of [range_checked] on an explicit event list. *)
Ltac queries_first :=
  do 2 eexists; split;
  [ reflexivity
  | let Hq := fresh "Hq" in
    intros ? Hq ? ?;
    first [ discriminate Hq
          | apply Some_inj in Hq; subst;
            first [lia | do 2 eexists; reflexivity] ] ].

Lemma Throw_inj {A} (e e' : exn) : @Throw A e = Throw e' -> e = e'.
Proof. intros H. injection H. auto. Qed.

Lemma range_checked_invalid {A} (refusals : list exn) (m c : Z)
  (r : Run Conn A) (e : exn) (evs : list Event) :
  validation_trace m c (Some e) evs ->
  res r = Throw e -> events r = evs ->
  range_checked refusals m c r.
Proof.
  intros Hv Hres Hev. unfold range_checked. rewrite Hres, Hev.
  remember (Some e) as oe eqn:E.
  destruct Hv; try discriminate E; apply Some_inj in E; subst e;
    (split; [queries_first|]);
    (split; [intros n' HIn Hout; in_events HIn; subst; reflexivity|]);
    (split; [intros k' Hm16 HIn Hout; in_events HIn; subst; reflexivity|]);
    intros e' He'; apply Throw_inj in He'; subst e';
    (split; [reflexivity|]).
  - auto.
  - left. exists n. cbn [In]. auto.
  - auto.
  - auto.
  - right. left. exists k. cbn [In]. auto.
Qed.

Lemma range_checked_ok {A} (refusals : list exn) (m c : Z)
  (r : Run Conn A) (x : A) (ev1 evk : list Event) :
  is_uint8 c ->
  validation_trace m c None ev1 ->
  res r = Ok x -> events r = (ev1 ++ evk)%list ->
  (forall a q, In (ERead a q) evk ->
     0x2010 < a \/ (a = 0x2000 /\ forall n, q = Some n -> 1 <= m <= n)) ->
  range_checked refusals m c r.
Proof.
  unfold is_uint8. intros Hc Hv Hres Hev Hk.
  apply validation_trace_valid in Hv.
  destruct Hv as (n & k & Hmn & Hm16 & Hck & ->).
  unfold range_checked. rewrite Hres, Hev. cbn [app].
  split; [queries_first|].
  split; [|split].
  - intros n' HIn Hout. exfalso. in_events HIn.
    destruct (Hk _ _ HIn) as [Ha|[_ Hq]]; [lia|].
    specialize (Hq n' eq_refl). lia.
  - intros k' _ HIn Hout. exfalso. in_events HIn.
    destruct (Hk _ _ HIn) as [Ha|[Ha _]]; lia.
  - intros e He. discriminate He.
Qed.

Lemma range_checked_simple {A} (m c : Z) (k : M A) (conn : Conn) :
  is_uint8 c ->
  (forall conn', exists x, res (k conn') = Ok x) ->
  (forall conn' a q,
     1 <= m <= 16 -> 1 <= c ->
     In (ERead a q) (events (k conn')) -> 0x2010 < a) ->
  range_checked [] m c
    ((validate_module_number m ;; validate_channel_number m c ;; k) conn).
Proof.
  intros Hc Hok Hev.
  destruct (validationP m c k conn) as (oe & ev1 & conn' & Hv & ->).
  destruct oe as [e|].
  - eapply range_checked_invalid; [exact Hv | reflexivity | reflexivity].
  - destruct (Hok conn') as (x & Hx).
    eapply range_checked_ok with (x := x) (evk := events (k conn'));
      [exact Hc | exact Hv | exact Hx | reflexivity |].
    intros a q HIn. left.
    destruct (validation_trace_valid _ _ _ Hv) as (n & k' & Hmn & Hm16 & Hck & _).
    apply (Hev conn' a q); [lia | lia | exact HIn].
Qed.

Lemma range_checked_read (base m c : Z) (conn : Conn) :
  is_uint8 c -> 0x2010 < base -> base + 1280 < 65536 ->
  range_checked [] m c
    ((validate_module_number m ;; validate_channel_number m c ;;
      read_uint16 (to_uint16 (base + (m - 1) * 4 + (c - 1)))) conn).
Proof.
  unfold is_uint8. intros Hc Hlo Hhi. apply range_checked_simple.
  - exact Hc.
  - intros conn'. rewrite read_uint16_run. eexists. reflexivity.
  - intros conn' a q Hm Hc1. rewrite read_uint16_run. cbn [events].
    rewrite to_uint16_small by lia. intros HIn. in_events HIn.
Qed.

Lemma range_checked_set_nominal_current (m c v : Z) (conn : Conn) :
  is_uint8 c ->
  range_checked [dial_only_module] m c (set_nominal_current m c v conn).
Proof.
  intros Hc.
  destruct (set_nominal_currentP m c v conn)
    as [e evs Hv He Hev | ev1 e ev2 Hv Hp He Hev | ev1 ev2 b ev3 Hv Hp Hh Hb Hev].
  - eapply range_checked_invalid; eassumption.
  - apply validation_trace_valid in Hv.
    destruct Hv as (n & k & Hmn & Hm16 & Hck & ->).
    unfold range_checked. rewrite He, Hev.
    remember (Some e) as oe eqn:E.
    destruct Hp; try discriminate E; apply Some_inj in E; subst e; cbn [app];
      (split; [queries_first|]);
      (split; [intros n' HIn Hout; in_events HIn; subst; reflexivity|]);
      (split; [intros k' _ HIn Hout; in_events HIn|]);
      intros e' He'; apply Throw_inj in He'; subst e';
      (split; [reflexivity|]).
    + right. right. left. reflexivity.
    + left. exists n0. split; [reflexivity|]. split; [|assumption].
      do 2 right. left. reflexivity.
    + do 4 right. left. reflexivity.
  - eapply range_checked_ok with (x := b) (evk := (ev2 ++ ev3)%list);
      [exact Hc | exact Hv | exact Hb | exact Hev |].
    destruct (validation_trace_valid _ _ _ Hv) as (n & k & Hmn & Hm16 & Hck & _).
    apply product_check_trace_pass in Hp. destruct Hp as (n' & q' & Hn' & _ & ->).
    unfold is_uint8 in Hc.
    intros a q HIn. cbn [app In] in HIn.
    destruct HIn as [HIn|[HIn|HIn]]; try discriminate HIn.
    + apply ERead_inj in HIn. destruct HIn as [<- <-]. right.
      split; [reflexivity|]. intros n0 Hn0. apply Some_inj in Hn0. lia.
    + left. apply (handshake_trace_events _ _ _ _ _ _ _ _ Hh) in HIn.
      cbn [handshake_event] in HIn. rewrite to_uint16_small in HIn by lia. lia.
Qed.

(** C4: each of the five module/channel-indexed operations queries the
    module count first on every call, throws the [invalid_argument] carrying
    the value and the live range exactly for a module number outside
    [1, count] or a channel number outside [1, channel count] as read in that
    call, and throws only before any write. *)
Theorem live_topology_validation (conn : Conn) (m c : Z) :
  is_uint8 m -> is_uint8 c ->
  (forall v,
     range_checked [dial_only_module] m c (set_nominal_current m c v conn)) /\
  range_checked [] m c (get_nominal_current m c conn) /\
  range_checked [] m c (get_channel_status m c conn) /\
  range_checked [] m c (get_load_current m c conn) /\
  (forall on, range_checked [] m c (control_channel m c on conn)).
Proof.
  intros Hm Hc.
  split; [intros v; apply range_checked_set_nominal_current; exact Hc|].
  split; [apply range_checked_read; [exact Hc | lia | lia]|].
  split; [|split; [apply range_checked_read; [exact Hc | lia | lia]|]].
  - unfold get_channel_status. apply range_checked_simple.
    + exact Hc.
    + intros conn'. rewrite bind_run, read_uint16_run.
      cbn [res final events fst snd].
      destruct (fst (read_register conn' _)); eexists; reflexivity.
    + unfold is_uint8 in Hc. intros conn' a q Hm16 Hc1.
      rewrite bind_run, read_uint16_run. cbn [res final events fst snd].
      rewrite to_uint16_small by lia.
      destruct (fst (read_register conn' _)); cbn [events ret app];
        intros HIn; in_events HIn.
  - intros on. unfold control_channel. apply range_checked_simple.
    + exact Hc.
    + intros conn'. rewrite write_uint16_run. eexists. reflexivity.
    + intros conn' a q _ _. rewrite write_uint16_run. cbn [events].
      intros HIn. in_events HIn.
Qed.
End Operations.

(** ** The scripted device keeps acknowledged writes *)

Lemma lookup_head (rs : list (Z * Z)) (a v : Z) : lookup ((a, v) :: rs) a = v.
Proof.
  unfold lookup. cbn [List.find fst snd]. rewrite Z.eqb_refl. reflexivity.
Qed.

Lemma lookup_other (rs : list (Z * Z)) (a v a' : Z) :
  a' <> a -> lookup ((a, v) :: rs) a' = lookup rs a'.
Proof.
  intros Hne. unfold lookup. cbn [List.find fst snd].
  destruct (Z.eqb_spec a a') as [E|_]; [congruence | reflexivity].
Qed.

Lemma sim_write_stores (s : Sim) (a v : Z) (s' : Sim) :
  sim_write_register s a v = (true, s') -> lookup (regs s') a = v.
Proof.
  unfold sim_write_register, next_reply.
  destruct (script s) as [|[| |x] rest]; intros H; try discriminate H;
    apply (f_equal snd) in H; cbn [snd] in H; subst s'; apply lookup_head.
Qed.

Lemma sim_write_frame (s : Sim) (a v : Z) (ok : bool) (s' : Sim) (a' : Z) :
  sim_write_register s a v = (ok, s') -> a' <> a ->
  lookup (regs s') a' = lookup (regs s) a'.
Proof.
  unfold sim_write_register, next_reply.
  destruct (script s) as [|[| |x] rest]; intros H Hne;
    apply (f_equal snd) in H; cbn [snd] in H; subst s'; cbn [regs];
    try reflexivity; apply lookup_other; exact Hne.
Qed.

#[export] Instance Sim_registers : HoldingRegisters Sim := {
  holding s := lookup (regs s);
  write_stores := sim_write_stores;
  write_frame := sim_write_frame
}.

(** ** The scenarios of the specification, run on the bench device *)

(** Splits a membership hypothesis over a computed event list. *)
Ltac no_such_event H :=
  vm_compute in H;
  repeat (destruct H as [H|H]; [discriminate H|]);
  exact H.

(** Happy path: the first read-back matches; the write succeeds and both
    locks end engaged. *)
Example protected_write_happy_path :
  res (set_nominal_current 1 1 10 (bench [])) = Ok true /\
  events (set_nominal_current 1 1 10 (bench [])) =
    [ERead 0x2000 (Some 2); ERead 0x2001 (Some 4); ERead 0x2000 (Some 2);
     EReadBlock 0x1010 16
       (Some [17217; 20545; 21071; 17184; 17716; 8241; 12845; 12852;
              17475; 12081; 11569; 12353; 0; 0; 0; 0]);
     ERead 0x6006 (Some 20); ESleep 70;
     EWrite 0xC090 0 true; ESleep 50; EWrite 0xC001 0 true; ESleep 50;
     EWrite 0xC050 10 true; ESleep 50; ERead 0xC050 (Some 10);
     EWrite 0xC001 1 true; ESleep 50; EWrite 0xC090 1 true; ESleep 100] /\
  holding (final (set_nominal_current 1 1 10 (bench []))) 0xC001 = 1 /\
  holding (final (set_nominal_current 1 1 10 (bench []))) 0xC090 = 1 /\
  holding (final (set_nominal_current 1 1 10 (bench []))) 0xC050 = 10.
Proof. vm_compute. repeat split. Qed.

(** Transient failure: the first two read-backs differ, the third matches:
    success after three attempts, locks engaged. *)
Example protected_write_transient_failure :
  res (set_nominal_current 1 1 10 (bench verified_at_third)) = Ok true /\
  parameter_writes
    (events (set_nominal_current 1 1 10 (bench verified_at_third))) = 3%nat /\
  holding (final (set_nominal_current 1 1 10 (bench verified_at_third)))
          0xC001 = 1 /\
  holding (final (set_nominal_current 1 1 10 (bench verified_at_third)))
          0xC090 = 1.
Proof. vm_compute. repeat split. Qed.

(** Total failure: five read-backs differ: failure, locks engaged again. *)
Example protected_write_total_failure :
  res (set_nominal_current 1 1 10 (bench never_verified)) = Ok false /\
  parameter_writes
    (events (set_nominal_current 1 1 10 (bench never_verified))) = 5%nat /\
  holding (final (set_nominal_current 1 1 10 (bench never_verified)))
          0xC001 = 1 /\
  holding (final (set_nominal_current 1 1 10 (bench never_verified)))
          0xC090 = 1.
Proof. vm_compute. repeat split. Qed.

(** ** Instances on the bench device *)

Lemma locks_restored_witness :
  holding (final (set_nominal_current 1 1 10 (bench never_verified))) 0xC001 = 1 /\
  holding (final (set_nominal_current 1 1 10 (bench never_verified)))
          (to_uint16 (0xC090 + (1 - 1) * 4 + (1 - 1))) = 1.
Proof.
  apply (locks_restored (bench never_verified) 1 1 10 false).
  - unfold is_uint8. lia.
  - unfold is_uint8. lia.
  - reflexivity.
  - intros a x HIn. exfalso. no_such_event HIn.
Defined.

(** C1 (failing input): when the transport refuses the global unlock
    write, the function returns false at once, without the cleanup that the
    verification-failure path performs, and leaves the channel lock register,
    engaged before the call, at 0. *)
Lemma channel_lock_left_open :
  holding global_unlock_refused 0xC001 = 1 /\
  holding global_unlock_refused 0xC090 = 1 /\
  res (set_nominal_current 1 1 10 global_unlock_refused) = Ok false /\
  events (set_nominal_current 1 1 10 global_unlock_refused) =
    [ERead 0x2000 (Some 2); ERead 0x2001 (Some 4); ERead 0x2000 (Some 2);
     EReadBlock 0x1010 16
       (Some [17217; 20545; 21071; 17184; 17716; 8241; 12845; 12852;
              17475; 12081; 11569; 12353; 0; 0; 0; 0]);
     ERead 0x6006 (Some 20); ESleep 70;
     EWrite 0xC090 0 true; ESleep 50; EWrite 0xC001 0 false] /\
  holding (final (set_nominal_current 1 1 10 global_unlock_refused)) 0xC090
    = 0 /\
  ~ (holding (final (set_nominal_current 1 1 10 global_unlock_refused)) 0xC001
       = 1 /\
     holding (final (set_nominal_current 1 1 10 global_unlock_refused)) 0xC090
       = 1).
Proof.
  vm_compute. repeat split. intros [_ H]. discriminate H.
Qed.

Lemma write_verify_loop_bounded_witness :
  loop_outcome 0xC050 10 kRetries
    (write_verify_loop 0xC050 10 kRetries (bench [])) /\
  false = false.
Proof.
  split.
  - apply (proj1 write_verify_loop_bounded).
  - apply (proj2 write_verify_loop_bounded (bench never_verified) 1 1 10 false).
    + reflexivity.
    + intros HIn. no_such_event HIn.
Defined.

Lemma relock_outcome_witness :
  exists verified : bool,
    (verified = true <->
     In (ERead (to_uint16 (0xC050 + (1 - 1) * 4 + (1 - 1))) (Some 10))
        (events (set_nominal_current 1 1 10 (bench [])))) /\
    relock_summary 0xC001 (to_uint16 (0xC090 + (1 - 1) * 4 + (1 - 1)))
      verified true
      (filter
         (is_relock_write 0xC001 (to_uint16 (0xC090 + (1 - 1) * 4 + (1 - 1))))
         (events (set_nominal_current 1 1 10 (bench [])))).
Proof.
  apply (relock_outcome (bench []) 1 1 10 true).
  - unfold is_uint8. lia.
  - unfold is_uint8. lia.
  - reflexivity.
Defined.

(** C3, as stated, fails: the read-back matched, the transport then
    refused the global re-lock write, and the function returned false. *)
Lemma verified_but_reported_failed :
  In (ERead 0xC050 (Some 10))
     (events (set_nominal_current 1 1 10 global_relock_refused)) /\
  In (EWrite 0xC001 1 false)
     (events (set_nominal_current 1 1 10 global_relock_refused)) /\
  res (set_nominal_current 1 1 10 global_relock_refused) = Ok false /\
  res (set_nominal_current 1 1 10 (bench [])) = Ok true.
Proof.
  vm_compute. repeat split.
  - do 12 right. left. reflexivity.
  - do 13 right. left. reflexivity.
Qed.

Lemma live_topology_validation_witness :
  res (set_nominal_current 1 5 10 (bench [])) =
    Throw (invalid_channel_number 5 1 4) /\
  res (get_load_current 3 1 (bench [])) = Throw (invalid_module_number 3 2).
Proof.
  destruct (live_topology_validation (bench []) 1 5) as (Hset & _);
    [unfold is_uint8; lia | unfold is_uint8; lia |].
  destruct (live_topology_validation (bench []) 3 1) as (_ & _ & _ & Hload & _);
    [unfold is_uint8; lia | unfold is_uint8; lia |].
  destruct (Hset 10) as (_ & _ & Hchannel & _).
  destruct Hload as (_ & Hmodule & _).
  split.
  - apply (Hchannel 4).
    + lia.
    + vm_compute. right. left. reflexivity.
    + right. lia.
  - apply (Hmodule 2).
    + vm_compute. left. reflexivity.
    + right. lia.
Defined.

Lemma dial_only_module_refused_witness :
  res (set_nominal_current 2 1 10 (bench [])) = Throw dial_only_module /\
  existsb is_write (events (set_nominal_current 2 1 10 (bench []))) = false.
Proof.
  apply (dial_only_module_refused (bench []) 2 1 10
           [17217; 20545; 21071; 17184; 17714; 8241; 12845; 12852;
            17475; 12082; 11569; 12353; 0; 0; 0; 0]).
  - vm_compute. do 3 right. left. reflexivity.
  - vm_compute. discriminate.
Defined.

Lemma settle_before_first_lock_write_witness :
  exists pre q ok rest,
    events (set_nominal_current 1 1 10 (bench [Ack; Ack; Ack; Ack; Nak])) =
      (pre ++ ERead 0x6006 q
           :: ESleep (match q with Some period => period | None => 100 end + 50)
           :: EWrite (to_uint16 (0xC090 + (1 - 1) * 4 + (1 - 1))) 0 ok
           :: rest)%list /\
    forallb is_read pre = true.
Proof.
  apply (settle_before_first_lock_write
           (bench [Ack; Ack; Ack; Ack; Nak]) 1 1 10 true).
  reflexivity.
Defined.

(** The settling sleep with an unreadable bus-cycle register is 150 ms. *)
Example settle_default_period :
  events (set_nominal_current 1 1 10 (bench [Ack; Ack; Ack; Ack; Nak; Nak])) =
    [ERead 0x2000 (Some 2); ERead 0x2001 (Some 4); ERead 0x2000 (Some 2);
     EReadBlock 0x1010 16
       (Some [17217; 20545; 21071; 17184; 17716; 8241; 12845; 12852;
              17475; 12081; 11569; 12353; 0; 0; 0; 0]);
     ERead 0x6006 None; ESleep 150; EWrite 0xC090 0 false].
Proof. reflexivity. Qed.

(** * Further properties *)

(** ** Word packing *)

Lemma lor_high_low (hi lo : Z) :
  0 <= lo < 65536 -> Z.lor (hi * 65536) lo = hi * 65536 + lo.
Proof.
  intros Hlo.
  assert (Hland : Z.land (hi * 65536) lo = 0).
  { apply Z.bits_inj'. intros n Hn. rewrite Z.land_spec, Z.bits_0.
    change 65536 with (2 ^ 16). rewrite Z.mul_pow2_bits by lia.
    destruct (Z_lt_ge_dec n 16) as [Hlt|Hge].
    - rewrite (Z.testbit_neg_r hi (n - 16)) by lia. reflexivity.
    - assert (Z.testbit lo n = false) as ->; [|apply andb_false_r].
      destruct (Z.eq_dec lo 0) as [->|Hnz]; [apply Z.bits_0|].
      apply Z.bits_above_log2; [lia|].
      apply Z.log2_lt_pow2; [lia|].
      apply Z.lt_le_trans with (2 ^ 16); [lia|].
      apply Z.pow_le_mono_r; lia. }
  rewrite <- Z.lxor_lor by exact Hland.
  symmetry. apply Z.add_nocarry_lxor. exact Hland.
Qed.

Lemma uint32_of_registers_value (hi lo : Z) :
  0 <= hi < 65536 -> 0 <= lo < 65536 ->
  uint32_of_registers [hi; lo] = hi * 65536 + lo.
Proof.
  intros Hhi Hlo. unfold uint32_of_registers, to_uint32. cbn [nth].
  rewrite Z.shiftl_mul_pow2 by lia. change (2 ^ 16) with 65536.
  rewrite Z.mod_small by lia. apply lor_high_low. exact Hlo.
Qed.

Lemma registers_of_uint32_words (value : Z) :
  registers_of_uint32 value = [(value / 65536) mod 65536; value mod 65536].
Proof.
  unfold registers_of_uint32. change 0xFFFF with (Z.ones 16).
  rewrite !Z.land_ones, Z.shiftr_div_pow2 by lia. reflexivity.
Qed.

(** X1: the two words [write_uint32] sends for a 32-bit value are 16-bit
    words, high word first, and [read_uint32] returns the value when the
    transport delivers these two words. *)
Theorem uint32_round_trip {Conn : Type} {T : ModbusConnection Conn}
  (conn : Conn) (address value : Z) :
  0 <= value < 4294967296 ->
  fst (read_registers conn address 2) = Some (registers_of_uint32 value) ->
  Forall (fun w => 0 <= w < 65536) (registers_of_uint32 value) /\
  uint32_of_registers (registers_of_uint32 value) = value /\
  read_uint32 address conn =
    mkRun (Ok (Some value)) (snd (read_registers conn address 2))
          [EReadBlock address 2 (Some (registers_of_uint32 value))].
Proof.
  intros Hv Hread.
  assert (Hhi : 0 <= (value / 65536) mod 65536 < 65536)
    by (apply Z.mod_pos_bound; lia).
  assert (Hlo : 0 <= value mod 65536 < 65536)
    by (apply Z.mod_pos_bound; lia).
  assert (Hrt : uint32_of_registers (registers_of_uint32 value) = value).
  { rewrite registers_of_uint32_words, uint32_of_registers_value
      by assumption.
    rewrite (Z.mod_small (value / 65536)).
    - pose proof (Z.div_mod value 65536). lia.
    - split; [apply Z.div_pos; lia|].
      apply Z.div_lt_upper_bound; lia. }
  split; [|split; [exact Hrt|]].
  - rewrite registers_of_uint32_words. repeat constructor; lia.
  - unfold read_uint32. rewrite bind_run. unfold conn_read_registers.
    destruct (read_registers conn address 2) as [q conn'].
    cbn [fst snd] in *. subst q. cbn [res final events ret app].
    rewrite Hrt. reflexivity.
Qed.

Lemma uint32_round_trip_witness :
  read_uint32 0x0100 words_device =
    mkRun (Ok (Some 0xDEADBEEF)) words_device
          [EReadBlock 0x0100 2 (Some (registers_of_uint32 0xDEADBEEF))].
Proof.
  destruct (uint32_round_trip words_device 0x0100 0xDEADBEEF)
    as (_ & _ & H); [lia | reflexivity | exact H].
Defined.

(** X2: whatever two 16-bit words the transport delivers, [read_uint32]
    returns high * 65536 + low, a value below 2^32. *)
Theorem read_uint32_big_endian {Conn : Type} {T : ModbusConnection Conn}
  (conn : Conn) (address hi lo : Z) :
  0 <= hi < 65536 -> 0 <= lo < 65536 ->
  fst (read_registers conn address 2) = Some [hi; lo] ->
  res (read_uint32 address conn) = Ok (Some (hi * 65536 + lo)) /\
  0 <= hi * 65536 + lo < 4294967296.
Proof.
  intros Hhi Hlo Hread. split; [|lia].
  unfold read_uint32. rewrite bind_run. unfold conn_read_registers.
  destruct (read_registers conn address 2) as [q conn'].
  cbn [fst snd] in *. subst q. cbn [res final events ret app].
  rewrite uint32_of_registers_value by assumption. reflexivity.
Qed.

Lemma read_uint32_big_endian_witness :
  res (read_uint32 0x0100 words_device) = Ok (Some (0xDEAD * 65536 + 0xBEEF)) /\
  0 <= 0xDEAD * 65536 + 0xBEEF < 4294967296.
Proof.
  apply (read_uint32_big_endian words_device 0x0100 0xDEAD 0xBEEF).
  - lia.
  - lia.
  - reflexivity.
Defined.

(** ** Temperature *)

(** X3: the temperature returned is the two's-complement reading of the
    16-bit word: it lies in -32768..32767, is congruent to the word modulo
    65536, equals it below 0x8000 and is the word minus 65536 from 0x8000
    on. *)
Theorem get_internal_temperature_signed {Conn : Type}
  {T : ModbusConnection Conn} (conn : Conn) (val : Z) :
  0 <= val < 65536 ->
  fst (read_register conn 0x6009) = Some val ->
  exists t : Z,
    res (get_internal_temperature conn) = Ok (Some t) /\
    -32768 <= t < 32768 /\
    (t - val) mod 65536 = 0 /\
    (val < 32768 -> t = val) /\
    (32768 <= val -> t = val - 65536).
Proof.
  intros Hval Hread. exists (to_int16 val).
  split.
  - unfold get_internal_temperature.
    rewrite bind_run, read_uint16_run, Hread. reflexivity.
  - unfold to_int16. rewrite Z.mod_small by lia.
    destruct (Z.ltb_spec val 32768); repeat split; try lia.
    + rewrite Z.sub_diag. reflexivity.
    + replace (val - 65536 - val) with (-1 * 65536) by ring.
      apply Z.mod_mul. lia.
Qed.

Lemma get_internal_temperature_signed_witness :
  exists t : Z,
    res (get_internal_temperature words_device) = Ok (Some t) /\
    -32768 <= t < 32768 /\
    (t - 0xFFFB) mod 65536 = 0 /\
    (0xFFFB < 32768 -> t = 0xFFFB) /\
    (32768 <= 0xFFFB -> t = 0xFFFB - 65536).
Proof.
  apply (get_internal_temperature_signed words_device 0xFFFB).
  - lia.
  - reflexivity.
Defined.

(** ** Reserved status bits *)

Lemma land_ones_eq_bits (k val val' : Z) :
  0 <= k ->
  (Z.land val (Z.ones k) = Z.land val' (Z.ones k) <->
   forall i, 0 <= i < k -> Z.testbit val i = Z.testbit val' i).
Proof.
  intros Hk. split.
  - intros H i Hi.
    apply (f_equal (fun x => Z.testbit x i)) in H.
    rewrite !Z.land_spec, Z.ones_spec_low, !andb_true_r in H by lia.
    exact H.
  - intros H. apply Z.bits_inj'. intros n Hn. rewrite !Z.land_spec.
    destruct (Z_lt_ge_dec n k) as [Hlt|Hge].
    + rewrite (H n) by lia. reflexivity.
    + rewrite Z.ones_spec_high, !andb_false_r by lia. reflexivity.
Qed.

Lemma bits_below_5 (P : Z -> Prop) :
  P 0 -> P 1 -> P 2 -> P 3 -> P 4 -> forall i, 0 <= i < 5 -> P i.
Proof.
  intros H0 H1 H2 H3 H4 i Hi.
  assert (E : i = 0 \/ i = 1 \/ i = 2 \/ i = 3 \/ i = 4) by lia.
  destruct E as [->|[->|[->|[->| ->]]]]; assumption.
Qed.

Lemma bits_below_7 (P : Z -> Prop) :
  P 0 -> P 1 -> P 2 -> P 3 -> P 4 -> P 5 -> P 6 ->
  forall i, 0 <= i < 7 -> P i.
Proof.
  intros H0 H1 H2 H3 H4 H5 H6 i Hi.
  assert (E : i = 0 \/ i = 1 \/ i = 2 \/ i = 3 \/ i = 4 \/ i = 5 \/ i = 6)
    by lia.
  destruct E as [->|[->|[->|[->|[->|[->| ->]]]]]]; assumption.
Qed.

(** X4: two status words decode to the same global status exactly when they
    agree on their low 5 bits, and to the same channel status exactly when
    they agree on their low 7 bits; in particular a status has no flag set
    exactly when the low 5 (resp. 7) bits of the word are zero. *)
Theorem status_decoding_low_bits (val val' : Z) :
  (decode_global_status val = decode_global_status val' <->
   Z.land val 0x1F = Z.land val' 0x1F) /\
  (decode_channel_status val = decode_channel_status val' <->
   Z.land val 0x7F = Z.land val' 0x7F) /\
  (decode_global_status val =
     GlobalStatus.mk false false false false false <->
   Z.land val 0x1F = 0) /\
  (decode_channel_status val =
     ChannelStatus.mk false false false false false false false <->
   Z.land val 0x7F = 0).
Proof.
  assert (G : forall v v',
            decode_global_status v = decode_global_status v' <->
            Z.land v 0x1F = Z.land v' 0x1F).
  { intros v v'. change 0x1F with (Z.ones 5).
    rewrite land_ones_eq_bits, !decode_global_status_bits by lia. split.
    - intros H. injection H as H0 H1 H2 H3 H4.
      apply bits_below_5; assumption.
    - intros H.
      rewrite (H 0), (H 1), (H 2), (H 3), (H 4) by lia. reflexivity. }
  assert (C : forall v v',
            decode_channel_status v = decode_channel_status v' <->
            Z.land v 0x7F = Z.land v' 0x7F).
  { intros v v'. change 0x7F with (Z.ones 7).
    rewrite land_ones_eq_bits, !decode_channel_status_bits by lia. split.
    - intros H. injection H as H0 H1 H2 H3 H4 H5 H6.
      apply bits_below_7; assumption.
    - intros H.
      rewrite (H 0), (H 1), (H 2), (H 3), (H 4), (H 5), (H 6) by lia.
      reflexivity. }
  split; [apply G|]. split; [apply C|]. split.
  - change (GlobalStatus.mk false false false false false)
      with (decode_global_status 0).
    rewrite G. reflexivity.
  - change (ChannelStatus.mk false false false false false false false)
      with (decode_channel_status 0).
    rewrite C. reflexivity.
Qed.

(** ** String fields of any register content *)

Lemma spec_until_null_no_null (bytes : list ascii) :
  ~ In Ascii.zero (spec_until_null bytes).
Proof.
  induction bytes as [|b bytes IH]; cbn [spec_until_null].
  - intros H. exact H.
  - destruct (Ascii.eqb_spec b Ascii.zero) as [E|Hne].
    + intros H. exact H.
    + intros [H|H]; [exact (Hne H) | exact (IH H)].
Qed.

Lemma spec_until_null_length (bytes : list ascii) :
  (List.length (spec_until_null bytes) <= List.length bytes)%nat.
Proof.
  induction bytes as [|b bytes IH]; cbn [spec_until_null List.length].
  - lia.
  - destruct (Ascii.eqb b Ascii.zero); cbn [List.length]; lia.
Qed.

(** X5: whatever the 16 registers hold, the string [read_string32] returns
    has at most 32 characters and contains no null character; when the
    transport fails it returns nothing after that single block read. *)
Theorem read_string32_bounded {Conn : Type} {T : ModbusConnection Conn}
  (conn : Conn) (address : Z) :
  events (read_string32 address conn) =
    [EReadBlock address 16 (fst (read_registers conn address 16))] /\
  (fst (read_registers conn address 16) = None ->
   res (read_string32 address conn) = Ok None) /\
  (forall values,
     fst (read_registers conn address 16) = Some values ->
     exists s,
       res (read_string32 address conn) = Ok (Some s) /\
       (String.length s <= 32)%nat /\
       ~ In Ascii.zero (list_ascii_of_string s)).
Proof.
  rewrite read_string32_run. cbn [events res].
  split; [reflexivity|]. split.
  - intros ->. reflexivity.
  - intros values ->. cbn [option_map].
    exists (string32_of_registers values). split; [reflexivity|].
    assert (E : list_ascii_of_string (string32_of_registers values) =
                spec_until_null
                  (spec_register_bytes
                     (map (fun i => nth i values 0) (seq 0 16)))).
    { unfold string32_of_registers.
      rewrite trim_until_null, string32_loop. reflexivity. }
    rewrite length_list_ascii_of_string, E. split.
    + etransitivity; [apply spec_until_null_length|].
      rewrite length_spec_register_bytes, length_map, length_seq. lia.
    + apply spec_until_null_no_null.
Qed.

Lemma read_string32_bounded_witness :
  exists s,
    res (read_string32 0x1010 (bench [])) = Ok (Some s) /\
    (String.length s <= 32)%nat /\
    ~ In Ascii.zero (list_ascii_of_string s).
Proof.
  apply (proj2 (proj2 (read_string32_bounded (bench []) 0x1010))
           [17217; 20545; 21071; 17184; 17716; 8241; 12845; 12852;
            17475; 12081; 11569; 12353; 0; 0; 0; 0]).
  reflexivity.
Defined.

(** ** Searching the register table *)

Lemma prefix_spec (p s : string) :
  String.prefix p s = true <-> exists post, s = String.append p post.
Proof.
  revert s. induction p as [|a p IH]; intros s; cbn [String.prefix String.append].
  - split; [intros _; exists s; reflexivity | intros _; destruct s; reflexivity].
  - destruct s as [|b s].
    + cbn [String.prefix].
      split; [discriminate | intros [post H]; discriminate H].
    + cbn [String.prefix].
      destruct (Ascii.ascii_dec a b) as [->|Hne].
      * rewrite IH. split; intros [post H]; exists post.
        -- rewrite H. reflexivity.
        -- injection H. auto.
      * split; [discriminate|]. intros [post H]. injection H. congruence.
Qed.

Lemma find_spec (pat s : string) :
  find pat s <> None <->
  exists pre post, s = String.append pre (String.append pat post).
Proof.
  induction s as [|b s IH]; cbn [find].
  - destruct (String.prefix pat EmptyString) eqn:Hp.
    + split; [intros _|discriminate].
      apply prefix_spec in Hp. destruct Hp as [post Hp].
      exists EmptyString, post. exact Hp.
    + split; [intros H; exfalso; apply H; reflexivity|].
      intros (pre & post & H).
      destruct pre as [|c pre]; [|discriminate H].
      cbn [String.append] in H.
      assert (String.prefix pat EmptyString = true)
        by (apply prefix_spec; exists post; exact H).
      congruence.
  - destruct (String.prefix pat (String b s)) eqn:Hp.
    + split; [intros _|discriminate].
      apply prefix_spec in Hp. destruct Hp as [post Hp].
      exists EmptyString, post. exact Hp.
    + assert (Hiff : (match find pat s with
                      | Some n => Some (S n)
                      | None => None
                      end <> None) <-> find pat s <> None)
        by (destruct (find pat s); split; congruence).
      rewrite Hiff, IH. split.
      * intros (pre & post & H). exists (String b pre), post.
        rewrite H. reflexivity.
      * intros (pre & post & H).
        destruct pre as [|c pre]; cbn [String.append] in H.
        -- assert (String.prefix pat (String b s) = true)
             by (apply prefix_spec; exists post; exact H).
           congruence.
        -- injection H as _ H. exists pre, post. exact H.
Qed.

Lemma table_loop {R : Type} (keep : R -> bool)
  (step : list R -> R -> list R) (done todo acc : list R) :
  (forall result reg,
     step result reg = if keep reg then (result ++ [reg])%list else result) ->
  fold_left
    (fun (result : list R) (i : nat) =>
       match nth_error (done ++ todo) i with
       | Some reg => step result reg
       | None => result
       end)
    (seq (List.length done) (List.length todo)) acc =
  (acc ++ filter keep todo)%list.
Proof.
  intros Hstep.
  revert done acc. induction todo as [|x todo IH]; intros done acc;
    cbn [List.length seq fold_left filter].
  - rewrite app_nil_r. reflexivity.
  - rewrite nth_error_app2, Nat.sub_diag by lia. cbn [nth_error].
    replace (done ++ x :: todo)%list with ((done ++ [x]) ++ todo)%list
      by (rewrite <- app_assoc; reflexivity).
    replace (S (List.length done)) with (List.length (done ++ [x])%list)
      by (rewrite length_app; cbn [List.length]; lia).
    rewrite IH, Hstep. destruct (keep x).
    + rewrite <- app_assoc. reflexivity.
    + reflexivity.
Qed.

Lemma find_registers_filter {R : Type} (name : R -> string)
  (table : list R) (pattern : string) :
  find_registers name table pattern =
  filter
    (fun reg =>
       match find (transform_tolower pattern) (transform_tolower (name reg)) with
       | Some _ => true
       | None => false
       end)
    table.
Proof.
  unfold find_registers.
  apply (table_loop
           (fun reg =>
              match find (transform_tolower pattern)
                      (transform_tolower (name reg)) with
              | Some _ => true
              | None => false
              end)
           (fun result reg =>
              match find (transform_tolower pattern)
                      (transform_tolower (name reg)) with
              | Some _ => (result ++ [reg])%list
              | None => result
              end)
           [] table []).
  intros result reg. destruct (find _ _); reflexivity.
Qed.

Lemma tolower_idempotent (c : ascii) : tolower (tolower c) = tolower c.
Proof.
  unfold tolower.
  destruct ((65 <=? N_of_ascii c)%N && (N_of_ascii c <=? 90)%N) eqn:E.
  - apply andb_true_iff in E. destruct E as [E1 E2].
    apply N.leb_le in E1, E2.
    rewrite N_ascii_embedding by lia.
    replace ((N_of_ascii c + 32 <=? 90)%N) with false
      by (symmetry; apply N.leb_gt; lia).
    rewrite andb_false_r. reflexivity.
  - rewrite E. reflexivity.
Qed.

Lemma transform_tolower_idempotent (s : string) :
  transform_tolower (transform_tolower s) = transform_tolower s.
Proof.
  induction s as [|c s IH]; cbn [transform_tolower].
  - reflexivity.
  - rewrite tolower_idempotent, IH. reflexivity.
Qed.

(** X6: [find_registers] returns the entries of the table, in table order,
    whose lower-cased name contains the lower-cased pattern; so the empty
    pattern returns the whole table, and patterns that differ only in case
    return the same entries. *)
Theorem find_registers_case_insensitive {R : Type} (name : R -> string)
  (table : list R) (pattern : string) :
  (exists keep : R -> bool,
     find_registers name table pattern = filter keep table /\
     forall reg,
       keep reg = true <->
       exists pre post,
         transform_tolower (name reg) =
         String.append pre
           (String.append (transform_tolower pattern) post)) /\
  find_registers name table EmptyString = table /\
  find_registers name table (transform_tolower pattern) =
    find_registers name table pattern /\
  (forall pattern',
     transform_tolower pattern' = transform_tolower pattern ->
     find_registers name table pattern' = find_registers name table pattern).
Proof.
  split; [|split; [|split]].
  - eexists. split; [apply find_registers_filter|].
    intros reg. cbn beta. rewrite <- find_spec.
    destruct (find _ _); split; congruence.
  - rewrite find_registers_filter. cbn [transform_tolower].
    induction table as [|x table IH]; cbn [filter]; [reflexivity|].
    replace (find EmptyString (transform_tolower (name x))) with (Some 0%nat).
    + rewrite IH. reflexivity.
    + destruct (transform_tolower (name x)); reflexivity.
  - rewrite !find_registers_filter, transform_tolower_idempotent. reflexivity.
  - intros pattern' H. rewrite !find_registers_filter, H. reflexivity.
Qed.

Lemma find_registers_case_insensitive_witness :
  find_registers snd sample_table "CURRENT" =
    [(0x6001, "Total System Current"%string);
     (0xC050, "Nominal current channel 1"%string)] /\
  find_registers snd sample_table "current" =
    find_registers snd sample_table "CURRENT".
Proof.
  split; [reflexivity|].
  apply (proj2 (proj2 (proj2
           (find_registers_case_insensitive snd sample_table "CURRENT")))).
  reflexivity.
Defined.

(** ** Looking up a register *)

Lemma append_cancel_l (p s s' : string) :
  String.append p s = String.append p s' -> s = s'.
Proof.
  induction p as [|a p IH]; cbn [String.append]; intros H.
  - exact H.
  - injection H as H. exact (IH H).
Qed.

Lemma hex_digit_injective (d d' : Z) :
  0 <= d < 16 -> 0 <= d' < 16 -> hex_digit d = hex_digit d' -> d = d'.
Proof.
  intros Hd Hd' H. unfold hex_digit in H.
  apply (f_equal N_of_ascii) in H.
  destruct (Z.ltb_spec d 10), (Z.ltb_spec d' 10);
    rewrite !N_ascii_embedding in H by lia; lia.
Qed.

Lemma format_hex04_injective (x y : Z) :
  0 <= x < 65536 -> 0 <= y < 65536 ->
  format_hex04 x = format_hex04 y -> x = y.
Proof.
  intros Hx Hy H. unfold format_hex04 in H.
  injection H as H3 H2 H1 H0.
  apply hex_digit_injective in H3, H2, H1, H0;
    try (apply Z.mod_pos_bound; lia).
  pose proof (Z.div_mod x 16 ltac:(lia)).
  pose proof (Z.div_mod (x / 16) 16 ltac:(lia)).
  pose proof (Z.div_mod (x / 16 / 16) 16 ltac:(lia)).
  pose proof (Z.div_mod y 16 ltac:(lia)).
  pose proof (Z.div_mod (y / 16) 16 ltac:(lia)).
  pose proof (Z.div_mod (y / 16 / 16) 16 ltac:(lia)).
  rewrite !Z.div_div in * by lia.
  change (16 * 16) with 256 in *. change (256 * 16) with 4096 in *.
  assert (x / 4096 < 16) by (apply Z.div_lt_upper_bound; lia).
  assert (y / 4096 < 16) by (apply Z.div_lt_upper_bound; lia).
  assert (0 <= x / 4096) by (apply Z.div_pos; lia).
  assert (0 <= y / 4096) by (apply Z.div_pos; lia).
  rewrite (Z.mod_small (x / 4096)) in * by lia.
  rewrite (Z.mod_small (y / 4096)) in * by lia.
  lia.
Qed.

Section RegisterTableProperties.

Context {RegisterInfo : Type}.
Variable reg_address : RegisterInfo -> Z.
Variable reg_num_registers : RegisterInfo -> Z.
Variable reg_type : RegisterInfo -> RegisterType.
Variable reg_access : RegisterInfo -> RegisterAccess.
Variable reg_name : RegisterInfo -> string.
Variable reg_description : RegisterInfo -> string.

Let info := get_register_info reg_address reg_num_registers reg_type
              reg_access reg_name reg_description.
Let text := register_info_text reg_address reg_num_registers reg_type
              reg_access reg_name reg_description.

(** X7: [get_register_info] describes the first table entry with the given
    address, whatever follows it in the table; it reports "not found"
    exactly when no entry has the address, and the not-found texts of two
    different 16-bit addresses differ. *)
Theorem get_register_info_first_match
  (table : list RegisterInfo) (address : Z) :
  (forall before reg after,
     table = (before ++ reg :: after)%list ->
     reg_address reg = address ->
     (forall r, In r before -> reg_address r <> address) ->
     info table address = text reg) /\
  ((forall r, In r table -> reg_address r <> address) <->
   info table address =
     ("Register at address 0x" ++ format_hex04 address ++ " not found")%string) /\
  (forall address',
     0 <= address < 65536 -> 0 <= address' < 65536 ->
     info [] address = info [] address' -> address = address').
Proof.
  subst info text. split; [|split].
  - intros before reg after -> Ha Hbefore.
    induction before as [|r before IH]; cbn [app get_register_info].
    + apply Z.eqb_eq in Ha. rewrite Ha. reflexivity.
    + assert (Hr : reg_address r <> address)
        by (apply Hbefore; left; reflexivity).
      apply Z.eqb_neq in Hr. rewrite Hr. apply IH.
      intros r' Hr'. apply Hbefore. right. exact Hr'.
  - induction table as [|r table IH]; cbn [get_register_info].
    + split; [reflexivity | intros _ r H; destruct H].
    + destruct (Z.eqb_spec (reg_address r) address) as [E|Hne].
      * split.
        -- intros H. exfalso. apply (H r); [left; reflexivity | exact E].
        -- unfold register_info_text. cbn [String.append]. discriminate.
      * rewrite <- IH. split.
        -- intros H r' Hr'. apply H. right. exact Hr'.
        -- intros H r' [<-|Hr']; [exact Hne | apply H; exact Hr'].
  - intros address' Ha Ha' H. cbn [get_register_info] in H.
    apply append_cancel_l in H.
    apply format_hex04_injective; try assumption.
    unfold format_hex04 in *. cbn [String.append] in H.
    injection H as H3 H2 H1 H0. congruence.
Qed.

End RegisterTableProperties.

Lemma get_register_info_first_match_witness :
  get_register_info fst (fun _ => 1) (fun _ => UINT16) (fun _ => READ_ONLY)
    snd snd (sample_table ++ [(0x6001, "Shadowed entry"%string)]) 0x6001 =
  register_info_text fst (fun _ => 1) (fun _ => UINT16) (fun _ => READ_ONLY)
    snd snd (0x6001, "Total System Current"%string).
Proof.
  apply (proj1 (get_register_info_first_match fst (fun _ => 1)
                  (fun _ => UINT16) (fun _ => READ_ONLY) snd snd
                  (sample_table ++ [(0x6001, "Shadowed entry"%string)])
                  0x6001)
           [(0x2000, "Number of connected modules"%string)]
           (0x6001, "Total System Current"%string)
           [(0xC050, "Nominal current channel 1"%string);
            (0x6001, "Shadowed entry"%string)]).
  - reflexivity.
  - reflexivity.
  - intros r [<-|[]]. cbn [fst]. lia.
Defined.

(** ** What the protected write touches, and when *)

Lemma reads_have_no_write (evs : list Event) (a x : Z) (ok : bool) :
  forallb is_read evs = true -> ~ In (EWrite a x ok) evs.
Proof.
  intros H HIn. rewrite forallb_forall in H.
  specialize (H _ HIn). discriminate H.
Qed.

Lemma Ok_inj {A} (x y : A) : Ok x = Ok y -> x = y.
Proof. intros H. injection H. auto. Qed.

Section Touches.

Context {Conn : Type} {T : ModbusConnection Conn}.

Lemma handshake_trace_writes (ga ca na v : Z) (conn : Conn) (b : bool)
  (evs : list Event) (a x : Z) (ok : bool) :
  handshake_trace ga ca na v conn b evs -> In (EWrite a x ok) evs ->
  (a = ga /\ (x = 0 \/ x = 1)) \/
  (a = ca /\ (x = 0 \/ x = 1)) \/
  (a = na /\ x = v).
Proof.
  intros H HIn.
  assert (Hfails : forall fails, Forall (failed_attempt na v) fails ->
                     In (EWrite a x ok) (List.concat fails) ->
                     a = na /\ x = v).
  { intros fails Hf Hc.
    destruct (failed_attempts_events na v fails _ Hf Hc)
      as [E|[E|[E|(q & _ & E)]]]; try discriminate E;
      apply EWrite_inj in E; destruct E as (-> & -> & _); auto. }
  destruct H; unfold settle_events, unlock_events, verified_attempt in HIn;
    rewrite ?in_app_iff in HIn; cbn [In] in HIn;
    repeat match goal with
           | H : _ \/ _ |- _ => destruct H
           | H : False |- _ => destruct H
           | H : In _ (List.concat _) |- _ =>
               apply Hfails in H; [|assumption]
           | H : EWrite _ _ _ = EWrite _ _ _ |- _ =>
               apply EWrite_inj in H; destruct H as (? & ? & ?); subst
           | H : _ = EWrite _ _ _ |- _ => discriminate H
           end; tauto.
Qed.

(** X8: [set_nominal_current] never writes any register but the global
    lock, the channel lock and the channel's nominal-current register; the
    lock registers only receive 0 or 1 and the parameter register only the
    requested value. *)
Theorem set_nominal_current_writes (conn : Conn) (m c v a x : Z) (ok : bool) :
  In (EWrite a x ok) (events (set_nominal_current m c v conn)) ->
  (a = 0xC001 /\ (x = 0 \/ x = 1)) \/
  (a = to_uint16 (0xC090 + (m - 1) * 4 + (c - 1)) /\ (x = 0 \/ x = 1)) \/
  (a = to_uint16 (0xC050 + (m - 1) * 4 + (c - 1)) /\ x = v).
Proof.
  intros HIn.
  destruct (set_nominal_currentP m c v conn)
    as [e evs Hv He Hev | ev1 e ev2 Hv Hp He Hev | ev1 ev2 b ev3 Hv Hp Hh Hb Hev];
    rewrite Hev in HIn.
  - exfalso.
    exact (reads_have_no_write _ _ _ _
             (validation_trace_only_reads _ _ _ _ Hv) HIn).
  - exfalso. apply in_app_or in HIn. destruct HIn as [HIn|HIn].
    + exact (reads_have_no_write _ _ _ _
               (validation_trace_only_reads _ _ _ _ Hv) HIn).
    + exact (reads_have_no_write _ _ _ _
               (product_check_trace_only_reads _ _ _ Hp) HIn).
  - apply in_app_or in HIn. destruct HIn as [HIn|HIn].
    { exfalso.
      exact (reads_have_no_write _ _ _ _
               (validation_trace_only_reads _ _ _ _ Hv) HIn). }
    apply in_app_or in HIn. destruct HIn as [HIn|HIn].
    { exfalso.
      exact (reads_have_no_write _ _ _ _
               (product_check_trace_only_reads _ _ _ Hp) HIn). }
    exact (handshake_trace_writes _ _ _ _ _ _ _ _ _ _ Hh HIn).
Qed.


Lemma split_after_prefix (a : Z) (A B pre post : list Event) (e : Event) :
  forallb (fun e' => negb (is_write_to a e')) A = true ->
  (A ++ B)%list = (pre ++ e :: post)%list ->
  is_write_to a e = true ->
  exists pre', pre = (A ++ pre')%list.
Proof.
  revert pre. induction A as [|x A IH]; intros pre HA Heq He.
  - exists pre. reflexivity.
  - cbn [forallb] in HA. apply andb_true_iff in HA. destruct HA as [Hx HA].
    destruct pre as [|y pre]; cbn [app] in Heq.
    + injection Heq as -> _. rewrite He in Hx. discriminate Hx.
    + injection Heq as -> Heq.
      destruct (IH pre HA Heq He) as [pre' ->].
      exists pre'. reflexivity.
Qed.

Lemma no_write_to_reads (a : Z) (evs : list Event) :
  forallb is_read evs = true ->
  forallb (fun e' => negb (is_write_to a e')) evs = true.
Proof.
  intros H. rewrite forallb_forall in *. intros e He.
  specialize (H e He). destruct e; try discriminate H; reflexivity.
Qed.

Lemma is_write_to_other (a a' x : Z) (ok : bool) :
  a' <> a -> negb (is_write_to a (EWrite a' x ok)) = true.
Proof.
  intros H. cbn [is_write_to]. apply Z.eqb_neq in H. rewrite H. reflexivity.
Qed.

(** X9: [set_nominal_current] writes the nominal-current register only
    after both unlock writes, channel lock then global lock, have been
    acknowledged. *)
Theorem parameter_written_after_unlock
  (conn : Conn) (m c v x : Z) (ok : bool) (pre post : list Event) :
  is_uint8 c ->
  events (set_nominal_current m c v conn) =
    (pre ++ EWrite (to_uint16 (0xC050 + (m - 1) * 4 + (c - 1))) x ok
         :: post)%list ->
  exists pre1 pre2 pre3,
    pre = (pre1 ++ EWrite (to_uint16 (0xC090 + (m - 1) * 4 + (c - 1))) 0 true
                :: pre2 ++ EWrite 0xC001 0 true :: pre3)%list.
Proof.
  unfold is_uint8. intros Hc Hsplit.
  set (na := to_uint16 (0xC050 + (m - 1) * 4 + (c - 1))) in *.
  set (ca := to_uint16 (0xC090 + (m - 1) * 4 + (c - 1))) in *.
  assert (HIn : In (EWrite na x ok) (events (set_nominal_current m c v conn))).
  { rewrite Hsplit. apply in_or_app. right. left. reflexivity. }
  assert (Hw : is_write_to na (EWrite na x ok) = true)
    by (cbn [is_write_to]; apply Z.eqb_refl).
  destruct (set_nominal_currentP m c v conn)
    as [e evs Hv He Hev | ev1 e ev2 Hv Hp He Hev | ev1 ev2 b ev3 Hv Hp Hh Hb Hev];
    rewrite Hev in HIn, Hsplit.
  - exfalso.
    exact (reads_have_no_write _ _ _ _
             (validation_trace_only_reads _ _ _ _ Hv) HIn).
  - exfalso. apply in_app_or in HIn. destruct HIn as [HIn|HIn].
    + exact (reads_have_no_write _ _ _ _
               (validation_trace_only_reads _ _ _ _ Hv) HIn).
    + exact (reads_have_no_write _ _ _ _
               (product_check_trace_only_reads _ _ _ Hp) HIn).
  - pose proof (no_write_to_reads na _
                  (validation_trace_only_reads _ _ _ _ Hv)) as H1.
    pose proof (no_write_to_reads na _
                  (product_check_trace_only_reads _ _ _ Hp)) as H2.
    destruct (validation_trace_valid _ _ _ Hv)
      as (n & k & Hmn & Hm16 & Hck & _).
    assert (Hca : ca <> na)
      by (unfold ca, na; rewrite !to_uint16_small by lia; lia).
    assert (Hga : 0xC001 <> na)
      by (unfold na; rewrite !to_uint16_small by lia; lia).
    fold ca na in Hh.
    assert (Hcases :
              (forallb (fun e' => negb (is_write_to na e')) ev3 = true) \/
              exists q rest,
                ev3 = (settle_events q ++ unlock_events 0xC001 ca ++ rest)%list).
    { destruct Hh; try (right; do 2 eexists; reflexivity); left;
        unfold settle_events; cbn [app forallb];
        rewrite ?is_write_to_other by assumption; reflexivity. }
    destruct Hcases as [Hnone|(q & rest & ->)].
    + exfalso.
      assert (Hall : forallb (fun e' => negb (is_write_to na e'))
                       (ev1 ++ ev2 ++ ev3) = true)
        by (rewrite !forallb_app, H1, H2, Hnone; reflexivity).
      rewrite forallb_forall in Hall. specialize (Hall _ HIn).
      rewrite Hw in Hall. discriminate Hall.
    + rewrite !app_assoc in Hsplit.
      rewrite <- (app_assoc ev1 ev2) in Hsplit.
      rewrite <- !app_assoc in Hsplit.
      rewrite (app_assoc ev1), (app_assoc (ev1 ++ ev2)),
        (app_assoc ((ev1 ++ ev2) ++ settle_events q)) in Hsplit.
      apply split_after_prefix with (a := na) in Hsplit; [|  | exact Hw].
      * destruct Hsplit as [pre' ->].
        exists ((ev1 ++ ev2) ++ settle_events q)%list, [ESleep kDelay],
          (ESleep kDelay :: pre').
        unfold unlock_events. rewrite <- !app_assoc. reflexivity.
      * rewrite !forallb_app, H1, H2. unfold settle_events, unlock_events.
        cbn [forallb app].
        rewrite !is_write_to_other by assumption. reflexivity.
Qed.

Lemma total_sleep_app (l1 l2 : list Event) :
  total_sleep (l1 ++ l2) = total_sleep l1 + total_sleep l2.
Proof.
  induction l1 as [|e l1 IH]; cbn [app total_sleep].
  - reflexivity.
  - destruct e; rewrite IH; lia.
Qed.

Lemma total_sleep_reads (evs : list Event) :
  forallb is_read evs = true -> total_sleep evs = 0.
Proof.
  induction evs as [|e evs IH]; cbn [forallb total_sleep]; intros H.
  - reflexivity.
  - apply andb_true_iff in H. destruct H as [He H].
    destruct e; try discriminate He; exact (IH H).
Qed.

Lemma total_sleep_fails (a v : Z) (fails : list (list Event)) :
  Forall (failed_attempt a v) fails ->
  50 * Z.of_nat (List.length fails) <= total_sleep (List.concat fails)
    <= 100 * Z.of_nat (List.length fails).
Proof.
  intros Hf. induction Hf as [|f fails Hfa Hf IH];
    cbn [List.concat List.length].
  - cbn. lia.
  - rewrite total_sleep_app, Nat2Z.inj_succ.
    destruct Hfa; cbn [total_sleep]; unfold kDelay; lia.
Qed.

(** X10: a call of [set_nominal_current] that throws has not slept at all;
    a call that returns has slept between period + 50 and period + 750 ms,
    and at least period + 350 ms when it reports success, where period is
    the bus-cycle period it read (100 when that read failed). *)
Theorem set_nominal_current_blocking_time (conn : Conn) (m c v : Z) :
  (forall e, res (set_nominal_current m c v conn) = Throw e ->
     total_sleep (events (set_nominal_current m c v conn)) = 0) /\
  (forall b, res (set_nominal_current m c v conn) = Ok b ->
     exists q,
       In (ERead 0x6006 q) (events (set_nominal_current m c v conn)) /\
       match q with Some period => period | None => 100 end + 50
         <= total_sleep (events (set_nominal_current m c v conn))
         <= match q with Some period => period | None => 100 end + 750 /\
       (b = true ->
        match q with Some period => period | None => 100 end + 350
          <= total_sleep (events (set_nominal_current m c v conn)))).
Proof.
  destruct (set_nominal_currentP m c v conn)
    as [e evs Hv He Hev | ev1 e ev2 Hv Hp He Hev | ev1 ev2 b ev3 Hv Hp Hh Hb Hev];
    rewrite Hev; (split; [intros e' He' | intros b' Hb']); try congruence.
  - apply total_sleep_reads.
    exact (validation_trace_only_reads _ _ _ _ Hv).
  - rewrite total_sleep_app,
      (total_sleep_reads _ (validation_trace_only_reads _ _ _ _ Hv)),
      (total_sleep_reads _ (product_check_trace_only_reads _ _ _ Hp)).
    reflexivity.
  - assert (b' = b) by congruence. subst b'.
    rewrite !total_sleep_app,
      (total_sleep_reads _ (validation_trace_only_reads _ _ _ _ Hv)),
      (total_sleep_reads _ (product_check_trace_only_reads _ _ _ Hp)).
    destruct Hh as [q|q|q fails b1 b2 Hf Hl Hrel|q fails Hf Hl|q fails Hf Hl
                   |q fails Hf Hl Hrel];
      exists q;
      (split; [rewrite !in_app_iff; right; right; left; left; reflexivity|]);
      rewrite ?total_sleep_app;
      try pose proof (total_sleep_fails _ _ _ Hf) as Hts;
      unfold settle_events, unlock_events, verified_attempt, kRetries, kDelay in *;
      cbn [total_sleep];
      (split; [lia | intros E; try discriminate E; lia]).
Qed.

(** ** Channel control *)


(** ** Read-only queries *)

Lemma validated_reads_only {A} (m c : Z) (k : M A) (conn : Conn) :
  (forall conn', forallb is_read (events (k conn')) = true) ->
  forallb is_read
    (events ((validate_module_number m ;; validate_channel_number m c ;; k)
               conn)) = true.
Proof.
  intros Hk.
  destruct (validationP m c k conn) as (oe & ev1 & conn' & Hv & ->).
  pose proof (validation_trace_only_reads _ _ _ _ Hv) as H1.
  destruct oe as [e|]; cbn [events]; [exact H1|].
  rewrite forallb_app, H1, Hk. reflexivity.
Qed.

(** X13: the query operations never write and never sleep: every event of
    a run of [get_nominal_current], [get_load_current], [get_channel_status],
    [get_global_status], [get_product_name_module],
    [get_number_of_channels_for_module] or [get_internal_temperature] is a
    read, whether the run returns or throws. *)
Theorem queries_only_read (conn : Conn) (m c : Z) :
  forallb is_read (events (get_nominal_current m c conn)) = true /\
  forallb is_read (events (get_load_current m c conn)) = true /\
  forallb is_read (events (get_channel_status m c conn)) = true /\
  forallb is_read (events (get_global_status conn)) = true /\
  forallb is_read (events (get_product_name_module m conn)) = true /\
  forallb is_read (events (get_number_of_channels_for_module m conn)) = true /\
  forallb is_read (events (get_internal_temperature conn)) = true.
Proof.
  assert (Hread : forall a conn',
            forallb is_read (events (read_uint16 a conn')) = true)
    by (intros a conn'; rewrite read_uint16_run; reflexivity).
  split; [apply validated_reads_only; intros; apply Hread|].
  split; [apply validated_reads_only; intros; apply Hread|].
  split.
  { unfold get_channel_status. apply validated_reads_only. intros conn'.
    rewrite bind_run, read_uint16_run. cbn [res final events fst snd].
    destruct (fst (read_register conn' _)); reflexivity. }
  split.
  { unfold get_global_status.
    rewrite bind_run, read_uint16_run. cbn [res final events fst snd].
    destruct (fst (read_register conn _)); reflexivity. }
  split.
  { unfold get_product_name_module.
    rewrite bind_run, validate_module_number_run. cbn [res final events].
    destruct (fst (read_register conn 0x2000)) as [n|]; [|reflexivity].
    destruct ((m <? 1) || (m >? n)); [reflexivity|].
    rewrite read_string32_run. reflexivity. }
  split.
  { unfold get_number_of_channels_for_module.
    destruct ((m <? 1) || (m >? 16)); [reflexivity | apply Hread]. }
  unfold get_internal_temperature.
  rewrite bind_run, read_uint16_run. cbn [res final events fst snd].
  destruct (fst (read_register conn _)); reflexivity.
Qed.

(** X14: a call of [get_product_name_module] that returns has read the
    module count and then the 16 registers from 0x1010 + (module-1)*16; for
    modules 1..16 that block lies inside 0x1010..0x110F, and the blocks of
    two different modules do not overlap.  A call that throws has only read
    the module count, and throws because that read failed or excluded the
    module. *)
Theorem get_product_name_module_block (conn : Conn) (m : Z) :
  is_uint8 m ->
  (forall name, res (get_product_name_module m conn) = Ok name ->
     exists n q,
       1 <= m <= n /\
       events (get_product_name_module m conn) =
         [ERead 0x2000 (Some n); EReadBlock (0x1010 + (m - 1) * 16) 16 q] /\
       name = option_map string32_of_registers q /\
       (m <= 16 ->
        0x1010 <= 0x1010 + (m - 1) * 16 /\
        0x1010 + (m - 1) * 16 + 16 <= 0x1110) /\
       (forall m', m' < m ->
        0x1010 + (m' - 1) * 16 + 16 <= 0x1010 + (m - 1) * 16)) /\
  (forall e, res (get_product_name_module m conn) = Throw e ->
     exists q,
       events (get_product_name_module m conn) = [ERead 0x2000 q] /\
       match q with
       | None => e = module_count_unreadable
       | Some n => e = invalid_module_number m n /\ (m < 1 \/ n < m)
       end).
Proof.
  unfold is_uint8. intros Hm. unfold get_product_name_module.
  rewrite bind_run, validate_module_number_run. cbn [res final events].
  destruct (read_register conn 0x2000) as [[n|] conn1]; cbn [fst snd].
  2:{ split; [discriminate|]. intros e He. apply Throw_inj in He.
      exists None. split; [reflexivity | congruence]. }
  destruct (range_cases m n) as [Hout|Hin].
  - rewrite range_test_true by exact Hout. cbn [res events].
    split; [discriminate|]. intros e He. apply Throw_inj in He.
    exists (Some n). split; [reflexivity|]. split; [congruence | exact Hout].
  - rewrite range_test_false by exact Hin.
    rewrite read_string32_run. cbn [res final events app].
    rewrite to_uint16_small by lia.
    split; [|discriminate].
    intros name Hname. apply Ok_inj in Hname. subst name.
    exists n, (fst (read_registers conn1 (0x1010 + (m - 1) * 16) 16)).
    repeat split; lia.
Qed.

End Touches.

Lemma set_nominal_current_writes_witness :
  (0xC050 = 0xC001 /\ (10 = 0 \/ 10 = 1)) \/
  (0xC050 = to_uint16 (0xC090 + (1 - 1) * 4 + (1 - 1)) /\ (10 = 0 \/ 10 = 1)) \/
  (0xC050 = to_uint16 (0xC050 + (1 - 1) * 4 + (1 - 1)) /\ 10 = 10).
Proof.
  apply (set_nominal_current_writes (bench []) 1 1 10 0xC050 10 true).
  vm_compute. do 10 right. left. reflexivity.
Defined.


Lemma parameter_written_after_unlock_witness :
  exists pre1 pre2 pre3,
    [ERead 0x2000 (Some 2); ERead 0x2001 (Some 4); ERead 0x2000 (Some 2);
     EReadBlock 0x1010 16
       (Some [17217; 20545; 21071; 17184; 17716; 8241; 12845; 12852;
              17475; 12081; 11569; 12353; 0; 0; 0; 0]);
     ERead 0x6006 (Some 20); ESleep 70;
     EWrite 0xC090 0 true; ESleep 50; EWrite 0xC001 0 true; ESleep 50] =
    (pre1 ++ EWrite (to_uint16 (0xC090 + (1 - 1) * 4 + (1 - 1))) 0 true
          :: pre2 ++ EWrite 0xC001 0 true :: pre3)%list.
Proof.
  apply (parameter_written_after_unlock (bench []) 1 1 10 10 true _
           [ESleep 50; ERead 0xC050 (Some 10);
            EWrite 0xC001 1 true; ESleep 50; EWrite 0xC090 1 true;
            ESleep 100]).
  - unfold is_uint8. lia.
  - reflexivity.
Defined.

Lemma set_nominal_current_blocking_time_witness :
  exists q,
    In (ERead 0x6006 q) (events (set_nominal_current 1 1 10 (bench []))) /\
    match q with Some period => period | None => 100 end + 50
      <= total_sleep (events (set_nominal_current 1 1 10 (bench [])))
      <= match q with Some period => period | None => 100 end + 750 /\
    (true = true ->
     match q with Some period => period | None => 100 end + 350
       <= total_sleep (events (set_nominal_current 1 1 10 (bench [])))).
Proof.
  apply (proj2 (set_nominal_current_blocking_time (bench []) 1 1 10) true).
  reflexivity.
Defined.


Lemma get_product_name_module_block_witness :
  exists n q,
    1 <= 2 <= n /\
    events (get_product_name_module 2 (bench [])) =
      [ERead 0x2000 (Some n); EReadBlock (0x1010 + (2 - 1) * 16) 16 q] /\
    Some "CAPAROC E2 12-24DC/2-10A"%string = option_map string32_of_registers q /\
    (2 <= 16 ->
     0x1010 <= 0x1010 + (2 - 1) * 16 /\ 0x1010 + (2 - 1) * 16 + 16 <= 0x1110) /\
    (forall m', m' < 2 ->
     0x1010 + (m' - 1) * 16 + 16 <= 0x1010 + (2 - 1) * 16).
Proof.
  apply (proj1 (get_product_name_module_block (bench []) 2
                  ltac:(unfold is_uint8; lia))).
  reflexivity.
Defined.

(** ** The committed value *)

Lemma steady_write_stores (s : Steady) (a v : Z) (s' : Steady) :
  steady_write_register s a v = (true, s') -> lookup (sregs s') a = v.
Proof.
  unfold steady_write_register, steady_next.
  destruct (sacks s) as [|[|] rest]; intros H; try discriminate H;
    apply (f_equal snd) in H; cbn [snd] in H; subst s'; apply lookup_head.
Qed.

Lemma steady_write_frame (s : Steady) (a v : Z) (ok : bool) (s' : Steady)
  (a' : Z) :
  steady_write_register s a v = (ok, s') -> a' <> a ->
  lookup (sregs s') a' = lookup (sregs s) a'.
Proof.
  unfold steady_write_register, steady_next.
  destruct (sacks s) as [|[|] rest]; intros H Hne;
    apply (f_equal snd) in H; cbn [snd] in H; subst s'; cbn [sregs];
    try reflexivity; apply lookup_other; exact Hne.
Qed.

#[export] Instance Steady_registers : HoldingRegisters Steady := {
  holding s := lookup (sregs s);
  write_stores := steady_write_stores;
  write_frame := steady_write_frame
}.

Lemma steady_read_reports (s : Steady) (a x : Z) (s' : Steady) :
  read_register s a = (Some x, s') -> holding s' a = x.
Proof.
  cbn [read_register Steady_connection holding Steady_registers].
  unfold steady_read_register, steady_next.
  destruct (sacks s) as [|[|] rest]; intros H; try discriminate H;
    injection H as <- <-; reflexivity.
Qed.

#[export] Instance Steady_reads : FaithfulReads Steady := {
  read_reports := steady_read_reports
}.

Section Committed.

Context {Conn : Type} {T : ModbusConnection Conn}.

Lemma write_verify_loop_read_back (a v : Z) (n : nat) (conn : Conn) :
  res (write_verify_loop a v n conn) = Ok true ->
  exists conn0,
    read_register conn0 a = (Some v, final (write_verify_loop a v n conn)).
Proof.
  revert conn. induction n as [|n IH]; intros conn.
  - discriminate.
  - cbn [write_verify_loop].
    rewrite bind_run, write_uint16_run. cbn [res final events fst snd].
    destruct (write_register conn a v) as [[|] conn1]; cbn [fst snd negb].
    + rewrite bind_run, sleep_for_run. cbn [res final events].
      rewrite bind_run, read_uint16_run. cbn [res final events fst snd].
      destruct (read_register conn1 a) as [q conn2] eqn:Hread; cbn [fst snd].
      destruct (match q with Some x => x =? v | None => false end) eqn:Hq.
      * intros _. destruct q as [x|]; [|discriminate Hq].
        apply Z.eqb_eq in Hq. subst x. exists conn1. exact Hread.
      * rewrite bind_run, sleep_for_run. cbn [res final events].
        apply IH.
    + rewrite bind_run, sleep_for_run. cbn [res final events].
      apply IH.
Qed.

(** The connection a successful run leaves behind: a read-back of the
    parameter register that returned the value, then the two acknowledged
    re-lock writes. *)
Lemma set_nominal_current_committed (m c v : Z) (conn : Conn) :
  res (set_nominal_current m c v conn) = Ok true ->
  exists conn0 conn1 conn2,
    read_register conn0 (to_uint16 (0xC050 + (m - 1) * 4 + (c - 1)))
      = (Some v, conn1) /\
    write_register conn1 0xC001 1 = (true, conn2) /\
    write_register conn2 (to_uint16 (0xC090 + (m - 1) * 4 + (c - 1))) 1
      = (true, final (set_nominal_current m c v conn)).
Proof.
  unfold set_nominal_current.
  match goal with
  | |- context [(_ ;; _ ;; ?k) conn] =>
      destruct (validationP m c k conn) as (oe & ev1 & conn1 & Hv & ->)
  end.
  destruct oe as [e|]; [discriminate|].
  match goal with
  | |- context [bind (get_product_name_module m) (fun p => if _ then _ else ?k)] =>
      destruct (product_checkP m k conn1) as (oe & ev2 & conn2 & Hp & ->)
  end.
  destruct oe as [e|]; [discriminate|].
  set (ga := 0xC001).
  set (ca := to_uint16 (0xC090 + (m - 1) * 4 + (c - 1))).
  set (na := to_uint16 (0xC050 + (m - 1) * 4 + (c - 1))).
  cbn [res final events].
  rewrite bind_run, read_uint16_run. cbn [res final events fst snd].
  destruct (read_register conn2 0x6006) as [q conn3]; cbn [fst snd].
  rewrite bind_run, sleep_for_run. cbn [res final events].
  rewrite bind_run, write_uint16_run. cbn [res final events fst snd].
  destruct (write_register conn3 ca 0) as [[|] conn4]; cbn [fst snd negb];
    [|discriminate].
  rewrite bind_run, sleep_for_run. cbn [res final events].
  rewrite bind_run, write_uint16_run. cbn [res final events fst snd].
  destruct (write_register conn4 ga 0) as [[|] conn5]; cbn [fst snd negb];
    [|discriminate].
  rewrite bind_run, sleep_for_run. cbn [res final events].
  rewrite bind_run.
  pose proof (write_verify_loop_read_back na v kRetries conn5) as Hloop.
  destruct (write_verify_loopP na v kRetries conn5)
    as (fails & Hf & [(Hr & Hl & He)|(Hr & Hl & He)]);
    rewrite Hr in *; cbn [negb].
  2:{ rewrite bind_run, write_uint16_run. cbn [res final events fst snd].
      rewrite bind_run, write_uint16_run. cbn [res final events fst snd ret].
      discriminate. }
  destruct (Hloop eq_refl) as (conn0 & Hread).
  rewrite bind_run, write_uint16_run. cbn [res final events fst snd].
  destruct (write_register (final (write_verify_loop na v kRetries conn5)) ga 1)
    as [[|] conn6] eqn:Hg; cbn [fst snd negb]; [|discriminate].
  rewrite bind_run, sleep_for_run. cbn [res final events].
  rewrite bind_run, write_uint16_run. cbn [res final events fst snd].
  destruct (write_register conn6 ca 1) as [[|] conn7] eqn:Hc;
    cbn [fst snd negb]; [|discriminate].
  rewrite bind_run, sleep_for_run. cbn [res final events ret].
  intros _. exists conn0, (final (write_verify_loop na v kRetries conn5)), conn6.
  repeat split; assumption.
Qed.

(** X11: on a device that keeps acknowledged writes and whose reads report
    the stored word, a call of [set_nominal_current] that returns true leaves
    the channel's nominal-current register holding the requested value and
    both lock registers holding 1. *)
Theorem set_nominal_current_commits
  {H : HoldingRegisters Conn} {F : FaithfulReads Conn}
  (conn : Conn) (m c v : Z) :
  is_uint8 c ->
  res (set_nominal_current m c v conn) = Ok true ->
  holding (final (set_nominal_current m c v conn))
          (to_uint16 (0xC050 + (m - 1) * 4 + (c - 1))) = v /\
  holding (final (set_nominal_current m c v conn)) 0xC001 = 1 /\
  holding (final (set_nominal_current m c v conn))
          (to_uint16 (0xC090 + (m - 1) * 4 + (c - 1))) = 1.
Proof.
  unfold is_uint8. intros Hc Hres.
  destruct (set_nominal_current_committed m c v conn Hres)
    as (conn0 & conn1 & conn2 & Hread & Hg & Hch).
  destruct (set_nominal_currentP m c v conn)
    as [e evs Hv He Hev | ev1 e ev2 Hv Hp He Hev | ev1 ev2 b ev3 Hv Hp Hh Hb Hev];
    try congruence.
  apply validation_trace_valid in Hv.
  destruct Hv as (n & k & Hmn & Hm16 & Hck & _).
  rewrite !to_uint16_small in * by lia.
  split; [|split].
  - rewrite (write_frame _ _ _ _ _ _ Hch) by lia.
    rewrite (write_frame _ _ _ _ _ _ Hg) by lia.
    exact (read_reports _ _ _ _ Hread).
  - rewrite (write_frame _ _ _ _ _ _ Hch) by lia.
    exact (write_stores _ _ _ _ Hg).
  - exact (write_stores _ _ _ _ Hch).
Qed.

End Committed.

Lemma set_nominal_current_commits_witness :
  holding (final (set_nominal_current 1 3 16 (steady_bench [])))
          (to_uint16 (0xC050 + (1 - 1) * 4 + (3 - 1))) = 16 /\
  holding (final (set_nominal_current 1 3 16 (steady_bench []))) 0xC001 = 1 /\
  holding (final (set_nominal_current 1 3 16 (steady_bench [])))
          (to_uint16 (0xC090 + (1 - 1) * 4 + (3 - 1))) = 1.
Proof.
  apply (set_nominal_current_commits (steady_bench []) 1 3 16).
  - unfold is_uint8. lia.
  - reflexivity.
Defined.

(** ** The hard module limit and the register layout *)

Section Limits.

Context {Conn : Type} {T : ModbusConnection Conn}.

Lemma beyond_limit_throws {A} (m c : Z) (k : M A) (conn : Conn) :
  m < 1 \/ 16 < m ->
  exists e,
    res ((validate_module_number m ;; validate_channel_number m c ;; k) conn)
      = Throw e /\
    existsb is_write
      (events ((validate_module_number m ;; validate_channel_number m c ;; k)
                 conn)) = false.
Proof.
  intros Hm.
  destruct (validationP m c k conn) as (oe & ev1 & conn' & Hv & ->).
  destruct oe as [e|].
  - exists e. split; [reflexivity|]. cbn [events].
    remember (Some e) as oe eqn:E. destruct Hv; reflexivity.
  - exfalso. apply validation_trace_valid in Hv.
    destruct Hv as (n & k' & Hmn & Hm16 & _). lia.
Qed.

(** X15: whatever the device reports, every module/channel-indexed
    operation called with module number 0 or above 16 throws, without having
    written anything: modules beyond 16 cannot be addressed even when the
    device counts them. *)
Theorem modules_beyond_16_rejected (conn : Conn) (m c v : Z) (on : bool) :
  m < 1 \/ 16 < m ->
  (exists e, res (set_nominal_current m c v conn) = Throw e /\
             existsb is_write (events (set_nominal_current m c v conn))
               = false) /\
  (exists e, res (get_nominal_current m c conn) = Throw e /\
             existsb is_write (events (get_nominal_current m c conn))
               = false) /\
  (exists e, res (get_channel_status m c conn) = Throw e /\
             existsb is_write (events (get_channel_status m c conn))
               = false) /\
  (exists e, res (get_load_current m c conn) = Throw e /\
             existsb is_write (events (get_load_current m c conn))
               = false) /\
  (exists e, res (control_channel m c on conn) = Throw e /\
             existsb is_write (events (control_channel m c on conn))
               = false).
Proof.
  intros Hm. repeat split; apply beyond_limit_throws; exact Hm.
Qed.

End Limits.

Lemma modules_beyond_16_rejected_witness :
  exists e, res (control_channel 17 1 true (mkSim [(0x2000, 20)] [])) = Throw e /\
            existsb is_write
              (events (control_channel 17 1 true (mkSim [(0x2000, 20)] [])))
              = false.
Proof.
  apply (modules_beyond_16_rejected (mkSim [(0x2000, 20)] []) 17 1 0 true).
  right. lia.
Defined.

(** X16: for modules 1..16 and channels 1..4 the register of a slot lies
    within the 64 registers from the base of its range, so the five
    module/channel-indexed ranges (status 0x6010, load current 0x6050,
    on/off control 0xC010, nominal current 0xC050, channel lock 0xC090) are
    pairwise disjoint and none of them contains the global lock register
    0xC001 or the topology registers 0x2000..0x2010. *)
Theorem register_ranges_disjoint (base base' m c m' c' : Z) :
  In base [0x6010; 0x6050; 0xC010; 0xC050; 0xC090] ->
  In base' [0x6010; 0x6050; 0xC010; 0xC050; 0xC090] ->
  1 <= m <= 16 -> 1 <= c <= 4 -> 1 <= m' <= 16 -> 1 <= c' <= 4 ->
  base <= register_address base m c <= base + 63 /\
  register_address base m c <> 0xC001 /\
  ~ (0x2000 <= register_address base m c <= 0x2010) /\
  (base <> base' ->
   register_address base m c <> register_address base' m' c').
Proof.
  intros Hb Hb' Hm Hc Hm' Hc'. unfold register_address.
  cbn [In] in Hb, Hb'.
  assert (0x6010 <= base <= 0xC090) by lia.
  assert (0x6010 <= base' <= 0xC090) by lia.
  rewrite !to_uint16_small by lia.
  repeat split; lia.
Qed.

Lemma register_ranges_disjoint_witness :
  0xC010 <= register_address 0xC010 16 4 <= 0xC010 + 63 /\
  register_address 0xC010 16 4 <> 0xC001 /\
  ~ (0x2000 <= register_address 0xC010 16 4 <= 0x2010) /\
  (0xC010 <> 0xC050 ->
   register_address 0xC010 16 4 <> register_address 0xC050 1 1).
Proof.
  apply (register_ranges_disjoint 0xC010 0xC050 16 4 1 1);
    cbn [In]; try lia; auto 6.
Defined.

(** ** The attempts of the protected write *)

Section Attempts.

Context {Conn : Type} {T : ModbusConnection Conn}.

(** C2: every returning run of [set_nominal_current] consists of reads,
    the settling read and sleep, and then one of: a refused channel unlock;
    a refused global unlock; or both unlocks followed by the write/verify
    attempts.  The attempts are failed passes (write refused and a delay, or
    write acknowledged, delay, unreadable or different read-back, delay)
    followed either by nothing, after exactly 5 failed passes, in which case
    the two cleanup writes follow and the function returns false; or, after
    fewer than 5 failed passes, by the pass whose read-back equals the
    written value, directly followed by the re-lock writes. *)
Theorem set_nominal_current_attempts (conn : Conn) (m c v : Z) (b : bool) :
  res (set_nominal_current m c v conn) = Ok b ->
  exists pre q rest,
    forallb is_read pre = true /\
    events (set_nominal_current m c v conn) =
      (pre ++ settle_events q ++ rest)%list /\
    ((rest = [EWrite (register_address 0xC090 m c) 0 false] /\ b = false) \/
     (rest = [EWrite (register_address 0xC090 m c) 0 true; ESleep 50;
              EWrite 0xC001 0 false] /\ b = false) \/
     exists fails,
       Forall (failed_attempt (register_address 0xC050 m c) v) fails /\
       ((List.length fails = 5%nat /\ b = false /\
         exists b1 b2,
           rest =
             (unlock_events 0xC001 (register_address 0xC090 m c)
              ++ List.concat fails
              ++ [EWrite 0xC001 1 b1;
                  EWrite (register_address 0xC090 m c) 1 b2])%list) \/
        ((List.length fails < 5)%nat /\
         exists relock,
           rest =
             (unlock_events 0xC001 (register_address 0xC090 m c)
              ++ List.concat fails
              ++ verified_attempt (register_address 0xC050 m c) v
              ++ relock)%list /\
           ((relock = [EWrite 0xC001 1 false] /\ b = false) \/
            (relock = [EWrite 0xC001 1 true; ESleep 50;
                       EWrite (register_address 0xC090 m c) 1 false] /\
             b = false) \/
            (relock = [EWrite 0xC001 1 true; ESleep 50;
                       EWrite (register_address 0xC090 m c) 1 true;
                       ESleep 100] /\
             b = true))))).
Proof.
  intros Hres. unfold register_address.
  destruct (set_nominal_currentP m c v conn)
    as [e evs Hv He Hev | ev1 e ev2 Hv Hp He Hev | ev1 ev2 b' ev3 Hv Hp Hh Hb Hev];
    try congruence.
  assert (b' = b) by congruence. subst b'.
  assert (Hpre : forallb is_read (ev1 ++ ev2) = true).
  { rewrite forallb_app, (validation_trace_only_reads _ _ _ _ Hv),
      (product_check_trace_only_reads _ _ _ Hp). reflexivity. }
  rewrite Hev, app_assoc.
  destruct Hh as [q|q|q fails b1 b2 Hf Hl Hrel|q fails Hf Hl|q fails Hf Hl
                 |q fails Hf Hl Hrel];
    exists (ev1 ++ ev2)%list, q; eexists;
    (split; [exact Hpre|]); (split; [reflexivity|]).
  - left. split; reflexivity.
  - right. left. split; reflexivity.
  - right. right. exists fails. split; [exact Hf|].
    left. split; [exact Hl|]. split; [reflexivity|].
    exists b1, b2. reflexivity.
  - right. right. exists fails. split; [exact Hf|].
    right. split; [exact Hl|]. eexists. split; [reflexivity|].
    left. split; reflexivity.
  - right. right. exists fails. split; [exact Hf|].
    right. split; [exact Hl|]. eexists. split; [reflexivity|].
    right. left. split; reflexivity.
  - right. right. exists fails. split; [exact Hf|].
    right. split; [exact Hl|]. eexists. split; [reflexivity|].
    right. right. split; reflexivity.
Qed.

End Attempts.

Lemma set_nominal_current_attempts_witness :
  exists pre q rest,
    forallb is_read pre = true /\
    events (set_nominal_current 1 1 10 (bench verified_at_third)) =
      (pre ++ settle_events q ++ rest)%list /\
    ((rest = [EWrite (register_address 0xC090 1 1) 0 false] /\ true = false) \/
     (rest = [EWrite (register_address 0xC090 1 1) 0 true; ESleep 50;
              EWrite 0xC001 0 false] /\ true = false) \/
     exists fails,
       Forall (failed_attempt (register_address 0xC050 1 1) 10) fails /\
       ((List.length fails = 5%nat /\ true = false /\
         exists b1 b2,
           rest =
             (unlock_events 0xC001 (register_address 0xC090 1 1)
              ++ List.concat fails
              ++ [EWrite 0xC001 1 b1;
                  EWrite (register_address 0xC090 1 1) 1 b2])%list) \/
        ((List.length fails < 5)%nat /\
         exists relock,
           rest =
             (unlock_events 0xC001 (register_address 0xC090 1 1)
              ++ List.concat fails
              ++ verified_attempt (register_address 0xC050 1 1) 10
              ++ relock)%list /\
           ((relock = [EWrite 0xC001 1 false] /\ true = false) \/
            (relock = [EWrite 0xC001 1 true; ESleep 50;
                       EWrite (register_address 0xC090 1 1) 1 false] /\
             true = false) \/
            (relock = [EWrite 0xC001 1 true; ESleep 50;
                       EWrite (register_address 0xC090 1 1) 1 true;
                       ESleep 100] /\
             true = true))))).
Proof.
  apply (set_nominal_current_attempts (bench verified_at_third) 1 1 10 true).
  reflexivity.
Defined.

(** The run on which the third read-back is the first to match: two failed
    passes, the verifying pass, then the re-lock writes. *)
Example three_attempts :
  events (set_nominal_current 1 1 10 (bench verified_at_third)) =
    ([ERead 0x2000 (Some 2); ERead 0x2001 (Some 4); ERead 0x2000 (Some 2);
      EReadBlock 0x1010 16
        (Some [17217; 20545; 21071; 17184; 17716; 8241; 12845; 12852;
               17475; 12081; 11569; 12353; 0; 0; 0; 0])]
     ++ settle_events (Some 20)
     ++ unlock_events 0xC001 0xC090
     ++ List.concat
          [[EWrite 0xC050 10 true; ESleep 50; ERead 0xC050 (Some 0); ESleep 50];
           [EWrite 0xC050 10 true; ESleep 50; ERead 0xC050 (Some 0); ESleep 50]]
     ++ verified_attempt 0xC050 10
     ++ [EWrite 0xC001 1 true; ESleep 50; EWrite 0xC090 1 true; ESleep 100])%list.
Proof. reflexivity. Qed.

(** The second path that leaves a lock open: after a matching read-back
    the transport refuses the global re-lock write; the function returns
    without issuing the channel re-lock write and both locks stay at 0. *)
Example relock_abandoned_after_refusal :
  res (set_nominal_current 1 1 10 global_relock_refused) = Ok false /\
  existsb (fun e => match e with
                    | EWrite 0xC090 1 _ => true
                    | _ => false
                    end)
    (events (set_nominal_current 1 1 10 global_relock_refused)) = false /\
  holding (final (set_nominal_current 1 1 10 global_relock_refused)) 0xC001
    = 0 /\
  holding (final (set_nominal_current 1 1 10 global_relock_refused)) 0xC090
    = 0.
Proof. vm_compute. repeat split. Qed.
